(** * Safe dynamic query construction of the inventory CLI

    A shallow embedding of [security.py] (class [QueryBuilder]),
    [database.py] ([DatabaseManager.execute_query]) and [operations.py]
    (class [InventoryOperations]), followed by the properties of the
    identifier registry, the value sanitizer, the statement builder and
    the insertion helpers.

    Conventions of the embedding:
    - Python [str] is [string]; the texts handled here (SQL keywords,
      column names of the registry, operator tokens) are ASCII, one
      [ascii] per character.
    - Python values bound as query parameters are the tagged type [Value].
    - A [dict] keeps insertion order and has unique keys: it is an
      association list [Dict].
    - A [raise] is the left injection of [Py A]; a [try ... except
      Exception] is a [match] on it.
    - [psycopg2.sql] objects are the syntax tree [Composable]; rendering
      ([as_string]) follows the driver: an [Identifier] is wrapped in
      double quotes (inner double quotes doubled) and a [Placeholder]
      renders as [%s]. *)

From stdpp Require Import base option list strings gmap.
From Stdlib Require Import Ascii String ZArith Lia.

Local Open Scope string_scope.
Local Open Scope list_scope.

(** ** Python values and exceptions *)

#[warnings="-register-all"]
Inductive Value : Type :=
| VNone : Value
| VBool (b : bool) : Value
| VInt (z : Z) : Value
| VFloat (literal : string) : Value
| VStr (s : string) : Value
| VList (l : list Value) : Value.

Inductive PyExc : Type :=
| ValueError (msg : string)
| IndexError (msg : string)
| KeyError (key : string)
| TypeError (msg : string).

Definition Py (A : Type) : Type := PyExc + A.

Definition ret {A} (a : A) : Py A := inr a.
Definition raise {A} (e : PyExc) : Py A := inl e.
Definition bind {A B} (m : Py A) (k : A → Py B) : Py B :=
  match m with
  | inl e => inl e
  | inr a => k a
  end.

#[global] Instance Py_ret : MRet Py := @ret.
#[global] Instance Py_bind : MBind Py := fun A B k m => bind m k.

(** A [dict] with string keys, in insertion order. *)
Definition Dict : Type := list (string * Value).

Definition keys (d : Dict) : list string := d.*1.
Definition values (d : Dict) : list Value := d.*2.

(** [k in d] *)
Definition dict_has (k : string) (d : Dict) : bool :=
  bool_decide (k ∈ keys d).

(** [d[k]] *)
Fixpoint dict_get (k : string) (d : Dict) : Py Value :=
  match d with
  | [] => raise (KeyError k)
  | (k', v) :: d' => if decide (k = k') then ret v else dict_get k d'
  end.

(** [d[k] = v]: an existing key keeps its position. *)
Fixpoint dict_set (k : string) (v : Value) (d : Dict) : Dict :=
  match d with
  | [] => [(k, v)]
  | (k', v') :: d' =>
      if decide (k = k') then (k, v) :: d' else (k', v') :: dict_set k v d'
  end.

(** ** String helpers: the [str] methods the code calls *)

Module Str.

(** [s.upper()] on ASCII letters. *)
Definition upper_ascii (c : ascii) : ascii :=
  let n := nat_of_ascii c in
  if (97 <=? n)%nat && (n <=? 122)%nat then ascii_of_nat (n - 32) else c.

Fixpoint upper (s : string) : string :=
  match s with
  | EmptyString => EmptyString
  | String c s' => String (upper_ascii c) (upper s')
  end.

(** [s.startswith(p)] *)
Definition startswith (p s : string) : bool := String.prefix p s.

(** [s.endswith(p)] *)
Definition endswith (p s : string) : bool :=
  String.prefix (String.rev p) (String.rev s).

(** [s[:-1]] *)
Fixpoint drop_last (s : string) : string :=
  match s with
  | EmptyString => EmptyString
  | String c EmptyString => EmptyString
  | String c s' => String c (drop_last s')
  end.

(** ASCII white space, as removed by [s.strip()]. *)
Definition is_space (c : ascii) : bool :=
  let n := nat_of_ascii c in
  ((9 <=? n)%nat && (n <=? 13)%nat) || ((28 <=? n)%nat && (n <=? 32)%nat).

Fixpoint lstrip (s : string) : string :=
  match s with
  | EmptyString => EmptyString
  | String c s' => if is_space c then lstrip s' else s
  end.

Fixpoint rstrip (s : string) : string :=
  match s with
  | EmptyString => EmptyString
  | String c s' =>
      match rstrip s' with
      | EmptyString => if is_space c then EmptyString else String c EmptyString
      | r => String c r
      end
  end.

(** [s.strip()] *)
Definition strip (s : string) : string := rstrip (lstrip s).

(** [sep.join(l)] on plain strings. *)
Definition join (sep : string) (l : list string) : string :=
  String.concat sep l.

End Str.

(** ** psycopg2.sql: composable statement fragments *)

Module sql.

#[warnings="-register-all"]
Inductive Composable : Type :=
| SQL (text : string)
| Identifier (name : string)
| Placeholder
| Composed (parts : list Composable).

(** Quoting of an identifier: wrapped in double quotes, every inner
    double quote doubled. *)
Definition dquote : ascii := "034"%char.

Fixpoint escape_ident (s : string) : string :=
  match s with
  | EmptyString => EmptyString
  | String c s' =>
      if decide (c = dquote)
      then String dquote (String dquote (escape_ident s'))
      else String c (escape_ident s')
  end.

Definition quote_ident (s : string) : string :=
  String dquote (escape_ident s +:+ String dquote EmptyString).

(** [c.as_string(cursor)] *)
Fixpoint as_string (c : Composable) : string :=
  match c with
  | SQL text => text
  | Identifier name => quote_ident name
  | Placeholder => "%s"
  | Composed parts =>
      (fix go (l : list Composable) : string :=
         match l with
         | [] => EmptyString
         | x :: r => as_string x +:+ go r
         end) parts
  end.

(** Number of [Placeholder] leaves of a fragment. *)
Fixpoint placeholders (c : Composable) : nat :=
  match c with
  | Placeholder => 1
  | Composed parts =>
      (fix go (l : list Composable) : nat :=
         match l with
         | [] => 0
         | x :: r => placeholders x + go r
         end) parts
  | _ => 0
  end.

(** [string.Formatter().parse] restricted to the auto-numbered field
    [{}], the only one the templates of [security.py] contain: the
    template is cut into (literal text, is a field following?) pairs. *)
Fixpoint parse (tpl pre : string) : list (string * bool) :=
  match tpl with
  | EmptyString =>
      match pre with EmptyString => [] | _ => [(pre, false)] end
  | String "{" (String "}" rest) => (pre, true) :: parse rest EmptyString
  | String c rest => parse rest (pre +:+ String c EmptyString)
  end.

Fixpoint fill (pieces : list (string * bool)) (args : list Composable)
  : Py (list Composable) :=
  match pieces with
  | [] => mret []
  | (pre, field) :: pieces' =>
      let lit := match pre with EmptyString => [] | _ => [SQL pre] end in
      if field then
        match args with
        | [] => raise (IndexError "tuple index out of range")
        | a :: args' => rv ← fill pieces' args'; mret (lit ++ a :: rv)
        end
      else rv ← fill pieces' args; mret (lit ++ rv)
  end.

(** [sql.SQL(tpl).format( *args )] *)
Definition format (tpl : string) (args : list Composable) : Py Composable :=
  rv ← fill (parse tpl EmptyString) args; mret (Composed rv).

(** [sql.SQL(sep).join(seq)] *)
Definition join (sep : string) (seq : list Composable) : Composable :=
  match seq with
  | [] => Composed []
  | x :: r => Composed (x :: flat_map (λ i, [SQL sep; i]) r)
  end.

End sql.

(** ** security.py: the identifier registry *)

Module QueryBuilder.

(** [VALID_IDENTIFIERS] *)
Definition VALID_IDENTIFIERS : gmap string (list string) :=
  list_to_map
    [ ("categories",
        ["category_id"; "category_name"; "description"; "created_at"]);
      ("suppliers",
        ["supplier_id"; "supplier_name"; "contact_person"; "email";
         "phone"; "address"; "created_at"]);
      ("products",
        ["product_id"; "product_name"; "category_id"; "supplier_id";
         "price"; "cost"; "quantity"; "sku"; "description";
         "created_at"; "updated_at"]);
      ("inventory_transactions",
        ["transaction_id"; "product_id"; "transaction_type";
         "quantity_change"; "previous_quantity"; "new_quantity";
         "reference"; "notes"; "created_at"; "created_by"]) ].

(** Truth value of an optional string: [None] and [""] are falsy. *)
Definition truthy_str (s : option string) : bool :=
  match s with
  | None => false
  | Some EmptyString => false
  | Some _ => true
  end.

(** [column in columns], for an optional [column]. *)
Definition column_in (column : option string) (columns : list string) : bool :=
  match column with
  | Some c => bool_decide (c ∈ columns)
  | None => false
  end.

(** [validate_identifier(table, column=None)] *)
Definition validate_identifier (table : string) (column : option string) : bool :=
  match VALID_IDENTIFIERS !! table with
  | None => false
  | Some columns =>
      if truthy_str column && negb (column_in column columns)
      then false
      else true
  end.

(** The character class of the pattern in [sanitize_value]: semicolon,
    single quote, double quote (code 34) and backslash. *)
Definition dangerous (c : ascii) : bool :=
  bool_decide (c ∈ [";"%char; "'"%char; "034"%char; "\"%char]).

(** [re.sub(pattern, '', s)]: every character of the class is deleted. *)
Fixpoint strip_dangerous (s : string) : string :=
  match s with
  | EmptyString => EmptyString
  | String c s' =>
      if dangerous c then strip_dangerous s' else String c (strip_dangerous s')
  end.

(** [sanitize_value(value)] *)
Definition sanitize_value (value : Value) : Value :=
  match value with
  | VStr s => VStr (strip_dangerous s)
  | _ => value
  end.

(** A filter: [(col, op, val)]. *)
Definition Filter : Type := string * string * Value.

(** [len(val)] *)
Definition py_len (val : Value) : Py nat :=
  match val with
  | VList l => mret (List.length l)
  | VStr s => mret (String.length s)
  | _ => raise (TypeError "object has no len()")
  end.

(** The body of the loop over the filters, the same in
    [build_select_query] and in [build_update_query]. *)
Definition condition (table : string) (f : Filter) : Py sql.Composable :=
  let '(col, op, val) := f in
  if negb (validate_identifier table (Some col))
  then raise (ValueError ("Invalid column name: " +:+ col))
  else if decide (Str.upper op = "IN")
  then
    n ← py_len val;
    let placeholders := sql.join ", " (replicate n sql.Placeholder) in
    sql.format "{} IN ({})" [sql.Identifier col; placeholders]
  else
    sql.format "{} {} {}" [sql.Identifier col; sql.SQL op; sql.Placeholder].

(** [build_select_query(table, filters=None)]; no filters and an empty
    list of filters are both falsy. *)
Definition build_select_query (table : string) (filters : list Filter)
  : Py sql.Composable :=
  if negb (validate_identifier table None)
  then raise (ValueError ("Invalid table name: " +:+ table))
  else
    query ← sql.format "SELECT * FROM {}" [sql.Identifier table];
    match filters with
    | [] => mret query
    | _ =>
        conditions ← mapM (condition table) filters;
        sql.format "{} WHERE {}" [query; sql.join " AND " conditions]
    end.

(** One step of the loop over [set_clauses]. *)
Definition set_part (table : string) (a : string * Value) : Py sql.Composable :=
  let '(col, val) := a in
  if negb (validate_identifier table (Some col))
  then raise (ValueError ("Invalid column name: " +:+ col))
  else sql.format "{} = {}" [sql.Identifier col; sql.Placeholder].

(** [build_update_query(table, set_clauses, where_clauses)] *)
Definition build_update_query (table : string)
    (set_clauses : list (string * Value)) (where_clauses : list Filter)
  : Py sql.Composable :=
  if negb (validate_identifier table None)
  then raise (ValueError ("Invalid table name: " +:+ table))
  else
    set_parts ← mapM (set_part table) set_clauses;
    where_parts ← mapM (condition table) where_clauses;
    sql.format "UPDATE {} SET {} WHERE {}"
      [sql.Identifier table; sql.join ", " set_parts;
       sql.join " AND " where_parts].

(** The validation loop over [columns] in [build_insert_query]. *)
Fixpoint check_columns (table : string) (columns : list string) : Py unit :=
  match columns with
  | [] => mret tt
  | col :: columns' =>
      if negb (validate_identifier table (Some col))
      then raise (ValueError ("Invalid column name: " +:+ col))
      else check_columns table columns'
  end.

(** [build_insert_query(table, columns, values_list)] *)
Definition build_insert_query (table : string) (columns : list string)
    (values_list : list (list Value)) : Py sql.Composable :=
  if negb (validate_identifier table None)
  then raise (ValueError ("Invalid table name: " +:+ table))
  else
    check_columns table columns;;
    let columns_sql := sql.join ", " (sql.Identifier <$> columns) in
    values_placeholders ←
      mapM (λ values : list Value,
              sql.format "({})"
                [sql.join ", " (replicate (List.length values) sql.Placeholder)])
           values_list;
    sql.format "INSERT INTO {} ({}) VALUES {} RETURNING *"
      [sql.Identifier table; columns_sql; sql.join ", " values_placeholders].

End QueryBuilder.


(** ** database.py and operations.py *)

Import QueryBuilder.

(** What the program prints or logs, one constructor per message. *)
Inductive Msg : Type :=
| LogQueryFailed (e : PyExc)
| ErrInvalidColumn (col table : string)
| ErrInvalidFilterColumn (col : string)
| ErrInvalidUpdateColumn (col : string)
| ErrCannotUpdateId
| ErrSameColumns
| ErrException (doing : string) (e : PyExc)
| NoRecordsToInsert
| FilteredResults (rows : list Dict)
| NoRecordsMatching
| UpdatedRecord (id_column : string) (record_id : Value) (rowcount : Z)
| NoRecordWith (id_column : string) (record_id : Value)
| UpdatedRecords (rowcount : Z) (update_column : string) (new_value : Value)
    (filter_column : string) (filter_values : list Value)
| InsertedRecord (table : string) (data : Dict)
| InsertedRelated (tables : nat)
| InsertedRecords (count : nat) (table : string) (rowcount : Z).

Section Operations.

(** The driver behind [DatabaseManager]: the state of the connection,
    [cursor.execute] followed by the commit (it raises or moves to a
    new state), [cursor.fetchall] and [cursor.rowcount]. *)
Context {DB : Type}.
Variable cursor_execute : DB → string → list Value → Py DB.
Variable fetchall : DB → list Dict.
Variable rowcount : DB → Z.

(** The observable world: the connection, the statements handed to the
    driver (oldest first) and the messages printed (oldest first). *)
Record World : Type := mkWorld {
  db : DB;
  executed : list (string * list Value);
  out : list Msg
}.

Definition emit (m : Msg) (w : World) : World :=
  mkWorld (db w) (executed w) (out w ++ [m]).

(** [DatabaseManager.execute_query(query, params)] *)
Definition execute_query (query : string) (params : list Value) (w : World)
  : World * option (list Dict) :=
  let w := mkWorld (db w) (executed w ++ [(query, params)]) (out w) in
  match cursor_execute (db w) query params with
  | inl e => (emit (LogQueryFailed e) w, None)
  | inr db' =>
      let w := mkWorld db' (executed w) (out w) in
      let q := Str.upper (Str.strip query) in
      if Str.startswith "SELECT" q || Str.startswith "SHOW" q
         || Str.startswith "DESC" q
      then (w, Some (fetchall db'))
      else (w, None)
  end.

(** [for v in val], for a list or a string. *)
Definition py_iter (val : Value) : Py (list Value) :=
  match val with
  | VList l => mret l
  | VStr s => mret ((λ c, VStr (String c EmptyString)) <$> list_ascii_of_string s)
  | _ => raise (TypeError "object is not iterable")
  end.

(** First column of [cols] that fails validation for [table]. *)
Definition first_invalid (table : string) (cols : list string) : option string :=
  head (filter (λ col, validate_identifier table (Some col) = false) cols).

(** The parameters of a filter list, in [filter_multiple_values]. *)
Fixpoint filter_params (filters : list Filter) : Py (list Value) :=
  match filters with
  | [] => mret []
  | (col, op, val) :: filters' =>
      here ← (if decide (Str.upper op = "IN")
              then vs ← py_iter val; mret (sanitize_value <$> vs)
              else mret [sanitize_value val]);
      rest ← filter_params filters';
      mret (here ++ rest)
  end.

(** [filter_multiple_values(table_name, filters)] *)
Definition filter_multiple_values (table_name : string)
    (filters : list Filter) (w : World) : World :=
  match first_invalid table_name (filters.*1.*1) with
  | Some col => emit (ErrInvalidColumn col table_name) w
  | None =>
      match (query ← build_select_query table_name filters;
             params ← filter_params filters;
             mret (sql.as_string query, params)) with
      | inl e => emit (ErrException "filtering data" e) w
      | inr (text, params) =>
          let '(w, results) := execute_query text params w in
          match results with
          | Some (r :: rs) => emit (FilteredResults (r :: rs)) w
          | _ => emit NoRecordsMatching w
          end
      end
  end.

(** The primary-key name [update_single_record] derives from a table. *)
Definition id_column_of (table_name : string) : string :=
  if Str.endswith "s" table_name
  then Str.drop_last table_name +:+ "_id"
  else table_name +:+ "_id".

(** [update_single_record(table_name, record_id, updates)] *)
Definition update_single_record (table_name : string) (record_id : Value)
    (updates : Dict) (w : World) : World :=
  if dict_has "id" updates
     || dict_has (Str.drop_last table_name +:+ "_id") updates
  then emit ErrCannotUpdateId w
  else
    match first_invalid table_name (keys updates) with
    | Some col => emit (ErrInvalidColumn col table_name) w
    | None =>
        let set_clauses := updates in
        let id_column := id_column_of table_name in
        let where_clauses := [(id_column, "=", record_id)] in
        match build_update_query table_name set_clauses where_clauses with
        | inl e => emit (ErrException "updating record" e) w
        | inr query =>
            let params :=
              (sanitize_value <$> values updates) ++ [sanitize_value record_id] in
            let '(w, _) := execute_query (sql.as_string query) params w in
            if (0 <? rowcount (db w))%Z
            then emit (UpdatedRecord id_column record_id (rowcount (db w))) w
            else emit (NoRecordWith id_column record_id) w
        end
    end.

(** [update_multiple_records(table_name, filter_column, filter_values,
    update_column, new_value)] *)
Definition update_multiple_records (table_name filter_column : string)
    (filter_values : list Value) (update_column : string)
    (new_value : Value) (w : World) : World :=
  if negb (validate_identifier table_name (Some filter_column))
  then emit (ErrInvalidFilterColumn filter_column) w
  else if negb (validate_identifier table_name (Some update_column))
  then emit (ErrInvalidUpdateColumn update_column) w
  else if Str.endswith "_id" update_column
  then emit ErrCannotUpdateId w
  else
    let set_clauses := [(update_column, new_value)] in
    let where_clauses := [(filter_column, "IN", VList filter_values)] in
    match build_update_query table_name set_clauses where_clauses with
    | inl e => emit (ErrException "updating records" e) w
    | inr query =>
        let params :=
          [sanitize_value new_value] ++ (sanitize_value <$> filter_values) in
        let '(w, _) := execute_query (sql.as_string query) params w in
        emit (UpdatedRecords (rowcount (db w)) update_column new_value
                filter_column filter_values) w
    end.

(** [insert_single_record(table_name, data)]; the result is the row
    returned, [None] when the function returns nothing. *)
Definition insert_single_record (table_name : string) (data : Dict)
    (w : World) : World * option Dict :=
  let columns := keys data in
  let values := values data in
  match first_invalid table_name columns with
  | Some col => (emit (ErrInvalidColumn col table_name) w, None)
  | None =>
      match build_insert_query table_name columns [values] with
      | inl e => (emit (ErrException "inserting record" e) w, None)
      | inr query =>
          let sanitized_values := sanitize_value <$> values in
          let '(w, result) :=
            execute_query (sql.as_string query) sanitized_values w in
          match result with
          | Some (row :: _) => (emit (InsertedRecord table_name data) w, Some row)
          | _ => (w, None)
          end
      end
  end.

(** One entry of [tables_data]: [(table_name, data, id_column)]. *)
Definition Related : Type := string * Dict * string.

(** [l[i]] and [l[-1]] *)
Definition py_index {A} (l : list A) (i : nat) : Py A :=
  match l !! i with
  | Some x => mret x
  | None => raise (IndexError "list index out of range")
  end.

Definition py_last {A} (l : list A) : Py A :=
  match last l with
  | Some x => mret x
  | None => raise (IndexError "list index out of range")
  end.

(** The loop over [data.keys()] of [insert_related_records]: a column
    named after the previous table receives the last captured
    identifier. *)
Fixpoint link_previous (tables_data : list Related) (i : nat)
    (cols : list string) (inserted_ids : list Value) (data : Dict) : Py Dict :=
  match cols with
  | [] => mret data
  | col :: cols' =>
      data ← (if Str.endswith "_id" col then
                prev ← py_index tables_data (i - 1);
                let prev_table := prev.1.1 in
                if decide (col = Str.drop_last prev_table +:+ "_id")
                then v ← py_last inserted_ids; mret (dict_set col v data)
                else mret data
              else mret data);
      link_previous tables_data i cols' inserted_ids data
  end.

(** What the loop body appends to [inserted_ids] after an insert. *)
Definition capture_id (result : option Dict) (id_column : string)
    (inserted_ids : list Value) : Py (list Value) :=
  match result with
  | Some (kv :: row) =>
      let result := kv :: row in
      if truthy_str (Some id_column)
      then v ← dict_get id_column result; mret (inserted_ids ++ [v])
      else
        match head (filter (λ key, Str.endswith "_id" key = true) (keys result)) with
        | Some key => v ← dict_get key result; mret (inserted_ids ++ [v])
        | None => mret inserted_ids
        end
  | _ => mret inserted_ids
  end.

(** The loop [for i, (table_name, data, id_column) in enumerate(tables_data)];
    [rest] is what remains of [tables_data] from position [i] on. *)
Fixpoint related_loop (tables_data : list Related) (i : nat)
    (rest : list Related) (inserted_ids : list Value) (w : World)
  : World * Py (list Value) :=
  match rest with
  | [] => (w, mret inserted_ids)
  | (table_name, data, id_column) :: rest' =>
      match (if (0 <? i)%nat && truthy_str (Some id_column)
             then link_previous tables_data i (keys data) inserted_ids data
             else mret data) with
      | inl e => (w, raise e)
      | inr data =>
          let '(w, result) := insert_single_record table_name data w in
          match capture_id result id_column inserted_ids with
          | inl e => (w, raise e)
          | inr inserted_ids =>
              related_loop tables_data (S i) rest' inserted_ids w
          end
      end
  end.

(** [insert_related_records(tables_data)] *)
Definition insert_related_records (tables_data : list Related) (w : World)
  : World * option (list Value) :=
  match related_loop tables_data 0 tables_data [] w with
  | (w, inr inserted_ids) =>
      (emit (InsertedRelated (List.length tables_data)) w, Some inserted_ids)
  | (w, inl e) =>
      (emit (ErrException "inserting related records" e) w, None)
  end.

(** [set(record.keys()) != set(columns)] *)
Definition keys_differ (record : Dict) (columns : list string) : bool :=
  bool_decide (list_to_set (C := gset string) (keys record)
               ≠ list_to_set (C := gset string) columns).

(** [insert_multiple_records(table_name, records)] *)
Definition insert_multiple_records (table_name : string)
    (records : list Dict) (w : World) : World * option (list Dict) :=
  match records with
  | [] => (emit NoRecordsToInsert w, None)
  | first :: _ =>
      let columns := keys first in
      if existsb (λ record, keys_differ record columns) records
      then (emit ErrSameColumns w, None)
      else
        match first_invalid table_name columns with
        | Some col => (emit (ErrInvalidColumn col table_name) w, None)
        | None =>
            let values_list := values <$> records in
            match build_insert_query table_name columns values_list with
            | inl e => (emit (ErrException "inserting multiple records" e) w, None)
            | inr query =>
                let flat_values :=
                  List.concat ((λ vs : list Value, sanitize_value <$> vs) <$> values_list) in
                let '(w, result) :=
                  execute_query (sql.as_string query) flat_values w in
                (emit (InsertedRecords (List.length records) table_name
                         (rowcount (db w))) w,
                 result)
            end
        end
  end.

End Operations.

Arguments World : clear implicits.
Arguments mkWorld {DB} _ _ _.

(** ** operations.py: the read operations *)

(** What a read operation prints last: one of the messages of [Msg], or
    the table of rows it found. *)
Inductive Report : Type :=
| Printed (m : Msg)
| TableShown (table : string) (rows : list Dict)
| TableEmpty (table : string)
| FilteredBy (column : string) (value : Value) (rows : list Dict)
| NothingWith (column : string) (value : Value).

Section ReadOperations.

Context {DB : Type}.
Variable cursor_execute : DB → string → list Value → Py DB.
Variable fetchall : DB → list Dict.

(** [display_table(table_name)] *)
Definition display_table (table_name : string) (w : World DB)
  : World DB * Report :=
  match build_select_query table_name [] with
  | inl e => (w, Printed (ErrException "displaying table" e))
  | inr query =>
      let '(w, results) :=
        execute_query cursor_execute fetchall (sql.as_string query) [] w in
      match results with
      | Some (r :: rs) => (w, TableShown table_name (r :: rs))
      | _ => (w, TableEmpty table_name)
      end
  end.

(** [filter_single_value(table_name, column_name, value)] *)
Definition filter_single_value (table_name column_name : string)
    (value : Value) (w : World DB) : World DB * Report :=
  if negb (validate_identifier table_name (Some column_name))
  then (w, Printed (ErrInvalidColumn column_name table_name))
  else
    match build_select_query table_name [(column_name, "=", value)] with
    | inl e => (w, Printed (ErrException "filtering data" e))
    | inr query =>
        let '(w, results) :=
          execute_query cursor_execute fetchall (sql.as_string query)
            [sanitize_value value] w in
        match results with
        | Some (r :: rs) => (w, FilteredBy column_name value (r :: rs))
        | _ => (w, NothingWith column_name value)
        end
    end.

(** ** database.py: schema introspection *)

Definition nl : string := String "010"%char EmptyString.

(** The query of [get_table_names]. *)
Definition table_names_query : string :=
  nl +:+ "                SELECT table_name " +:+ nl
  +:+ "                FROM information_schema.tables " +:+ nl
  +:+ "                WHERE table_schema = 'public'" +:+ nl
  +:+ "                ORDER BY table_name" +:+ nl
  +:+ "            ".

(** The query of [get_table_columns]. *)
Definition table_columns_query : string :=
  nl +:+ "                SELECT column_name " +:+ nl
  +:+ "                FROM information_schema.columns " +:+ nl
  +:+ "                WHERE table_schema = 'public' " +:+ nl
  +:+ "                AND table_name = %s" +:+ nl
  +:+ "                ORDER BY ordinal_position" +:+ nl
  +:+ "            ".

(** [[row[key] for row in rows] if rows else []], inside a [try] whose
    handler calls [log_error(message, e)] and returns the empty list. The
    third component is that call, when it was made. *)
Definition column_of_rows (key message : string) (rows : option (list Dict))
  : list Value * option (string * PyExc) :=
  match rows with
  | Some (r :: rs) =>
      match mapM (dict_get key) (r :: rs) with
      | inr vs => (vs, None)
      | inl e => ([], Some (message, e))
      end
  | _ => ([], None)
  end.

(** [get_table_names()] *)
Definition get_table_names (w : World DB)
  : World DB * (list Value * option (string * PyExc)) :=
  let '(w, tables) :=
    execute_query cursor_execute fetchall table_names_query [] w in
  (w, column_of_rows "table_name" "Failed to get table names" tables).

(** [get_table_columns(table_name)] *)
Definition get_table_columns (table_name : string) (w : World DB)
  : World DB * (list Value * option (string * PyExc)) :=
  let '(w, columns) :=
    execute_query cursor_execute fetchall table_columns_query
      [VStr table_name] w in
  (w, column_of_rows "column_name"
        ("Failed to get columns for table '" +:+ table_name +:+ "'") columns).

(** [x == column_name] for a value [x] of a row. *)
Definition is_str (column_name : string) (x : Value) : bool :=
  match x with
  | VStr s => bool_decide (s = column_name)
  | _ => false
  end.

(** [validate_column_name(table_name, column_name)] *)
Definition validate_column_name (table_name column_name : string)
    (w : World DB) : World DB * bool :=
  let '(w, (valid_columns, _)) := get_table_columns table_name w in
  (w, existsb (is_str column_name) valid_columns).

End ReadOperations.

(** ** main.py: the values typed for an IN condition *)

(** [s.split(',')]: the pieces between the commas, [cur] being the piece
    read so far. *)
Fixpoint split_commas (cur s : string) : list string :=
  match s with
  | EmptyString => [cur]
  | String c s' =>
      if decide (c = ","%char)
      then cur :: split_commas EmptyString s'
      else split_commas (cur +:+ String c EmptyString) s'
  end.

(** [[v.strip() for v in input(...).strip().split(',')]], the list of the
    menus for a list of values, before the numeric conversion of each
    element. *)
Definition typed_values (line : string) : list string :=
  Str.strip <$> split_commas EmptyString (Str.strip line).

(** A driver that refuses every statement. *)
Definition refuse_all (d : unit) (query : string) (params : list Value)
  : Py unit := raise (ValueError "connection already closed").

(** main.py, [insert_related_records_menu]: the example data the menu
    passes to [insert_related_records]. *)
Definition example_tables_data (current_user : string)
  : list (string * Dict * string) :=
  [("products",
    [("product_name", VStr "Test Product"); ("category_id", VInt 1);
     ("supplier_id", VInt 1); ("price", VFloat "99.99");
     ("cost", VFloat "60.00"); ("quantity", VInt 100);
     ("sku", VStr "TEST-001");
     ("description", VStr "Test product for demonstration")],
    "product_id");
   ("inventory_transactions",
    [("product_id", VInt 0); ("transaction_type", VStr "PURCHASE");
     ("quantity_change", VInt 100); ("previous_quantity", VInt 0);
     ("new_quantity", VInt 100); ("reference", VStr "TEST-001");
     ("notes", VStr "Initial stock"); ("created_by", VStr current_user)],
    "transaction_id")].

(** The tuple of placeholders [build_insert_query] makes for one row. *)
Definition row_of (vs : list Value) : sql.Composable :=
  sql.Composed
    [sql.SQL "(";
     sql.join ", " (replicate (List.length vs) sql.Placeholder);
     sql.SQL ")"].

(** Number of characters of [s] equal to [c]. *)
Fixpoint count_char (c : ascii) (s : string) : nat :=
  match s with
  | EmptyString => 0
  | String c' s' => (if decide (c' = c) then 1 else 0) + count_char c s'
  end.

(** No character of [s] is one that [sanitize_value] deletes. *)
Fixpoint clean (s : string) : bool :=
  match s with
  | EmptyString => true
  | String c s' => negb (dangerous c) && clean s'
  end.

(** ** Vocabulary of the statements below *)

(** A filter is valid for a table when its column is registered for the
    table and, if its operator is IN, its value is a list. *)
Definition valid_filter (table : string) (f : Filter) : Prop :=
  validate_identifier table (Some f.1.1) = true
  ∧ (Str.upper f.1.2 = "IN" → ∃ l, f.2 = VList l).

(** The parameters one filter contributes: the sanitized elements of an
    IN list, the sanitized value otherwise. *)
Definition cond_params (f : Filter) : list Value :=
  if decide (Str.upper f.1.2 = "IN")
  then match f.2 with
       | VList l => sanitize_value <$> l
       | _ => []
       end
  else [sanitize_value f.2].

(** The text of an IN condition on [col] with [n] placeholders. *)
Definition in_text (col : string) (n : nat) : string :=
  sql.quote_ident col +:+ " IN (" +:+ Str.join ", " (replicate n "%s") +:+ ")".

(** A driver that accepts every statement. *)
Definition accept_all (d : unit) (query : string) (params : list Value)
  : Py unit := mret d.

(** A driver that refuses every insert into [categories] and accepts the
    other statements. *)
Definition refuse_categories (d : unit) (query : string) (params : list Value)
  : Py unit :=
  if Str.startswith ("INSERT INTO " +:+ sql.quote_ident "categories") query
  then raise (ValueError "permission denied for table categories")
  else mret d.

Definition no_rows (d : unit) : list Dict := [].
Definition no_count (d : unit) : Z := 0%Z.

(** The world before anything was executed or printed. *)
Definition fresh : World unit := mkWorld tt [] [].

(** A category followed by a supplier, each with its identifier column. *)
Definition category_then_supplier : list (string * Dict * string) :=
  [("categories", [("category_name", VStr "Tools")], "category_id");
   ("suppliers", [("supplier_name", VStr "Acme")], "supplier_id")].

(** The text of a one-column, one-row INSERT. *)
Definition insert_one_text (table column : string) : string :=
  "INSERT INTO " +:+ sql.quote_ident table +:+ " (" +:+ sql.quote_ident column
  +:+ ") VALUES (%s) RETURNING *".


(** * Properties *)

(** ** The embedding on small inputs *)

Example endswith_id :
  Str.endswith "_id" "product_id" = true ∧ Str.endswith "_id" "price" = false
  ∧ Str.endswith "s" EmptyString = false.
Proof. done. Qed.

Example drop_last_products : Str.drop_last "products" = "product".
Proof. done. Qed.

Example strip_spaces : Str.strip "  select 1 " = "select 1".
Proof. done. Qed.

Example id_column_of_tables :
  id_column_of "products" = "product_id"
  ∧ id_column_of "categories" = "categorie_id".
Proof. done. Qed.

Example insert_categories_text :
  (q ← build_insert_query "categories" ["category_name"; "description"]
         [[VStr "Tools"; VStr "Hand tools"]];
   mret (sql.as_string q))
  = inr ("INSERT INTO " +:+ sql.quote_ident "categories" +:+ " ("
         +:+ sql.quote_ident "category_name" +:+ ", "
         +:+ sql.quote_ident "description"
         +:+ ") VALUES (%s, %s) RETURNING *").
Proof. done. Qed.

Example select_unknown_table :
  build_select_query "users" [] = inl (ValueError "Invalid table name: users").
Proof. done. Qed.

(** ** The identifier registry *)

Section Registry.

Lemma truthy_nonempty (c : string) :
  c ≠ EmptyString → truthy_str (Some c) = true.
Proof. by destruct c. Qed.

(** C2 (as stated, refuted): the empty column name is listed for no
    table, and yet it passes validation for the table [products]. *)
Lemma validate_identifier_empty_column_passes :
  ¬ (validate_identifier "products" (Some EmptyString) = true
     ↔ ∃ columns, VALID_IDENTIFIERS !! "products" = Some columns
                  ∧ EmptyString ∈ columns).
Proof.
  intros [Hto _].
  destruct (Hto eq_refl) as (columns & Hlook & Hin).
  vm_compute in Hlook. injection Hlook as <-.
  revert Hin. by apply (bool_decide_unpack _).
Qed.

(** C2 (amended): for every table name and every non-empty column name,
    [validate_identifier] answers true exactly when the table is a key of
    the registry and the column is in the list registered for it. The
    function is total and pure, so it neither raises nor has an effect. *)
Theorem validate_identifier_iff (table column : string) :
  column ≠ EmptyString →
  validate_identifier table (Some column) = true
  ↔ ∃ columns, VALID_IDENTIFIERS !! table = Some columns ∧ column ∈ columns.
Proof.
  intros Hne. unfold validate_identifier.
  destruct (VALID_IDENTIFIERS !! table) as [columns|] eqn:Hlook.
  - rewrite (truthy_nonempty _ Hne). simpl.
    destruct (bool_decide_reflect (column ∈ columns)) as [Hin|Hnin]; simpl.
    + split; [eauto | done].
    + split; [done | intros (cs & [= <-] & Hin); done].
  - split; [done | intros (cs & [=] & _)].
Qed.

Lemma validate_identifier_iff_witness :
  validate_identifier "products" (Some "price") = true
  ↔ ∃ columns, VALID_IDENTIFIERS !! "products" = Some columns
               ∧ "price" ∈ columns.
Proof. apply (validate_identifier_iff "products" "price"). discriminate. Defined.

(** C10: for a registered table, validation succeeds when the column is
    omitted ([None]) or is the empty string: the membership test is
    skipped for a falsy column. *)
Theorem validate_identifier_falsy_column (table : string) :
  is_Some (VALID_IDENTIFIERS !! table) →
  validate_identifier table None = true
  ∧ validate_identifier table (Some EmptyString) = true.
Proof.
  intros [columns Hlook]. unfold validate_identifier. by rewrite Hlook.
Qed.

Lemma validate_identifier_falsy_column_witness :
  validate_identifier "suppliers" None = true
  ∧ validate_identifier "suppliers" (Some EmptyString) = true.
Proof.
  apply (validate_identifier_falsy_column "suppliers").
  vm_compute. eauto.
Defined.

End Registry.

(** ** The value sanitizer *)

Section Sanitizer.

Lemma strip_dangerous_filter (s : string) :
  list_ascii_of_string (strip_dangerous s)
  = filter (λ c, dangerous c = false) (list_ascii_of_string s).
Proof.
  induction s as [|c s IH]; [done|].
  simpl. rewrite filter_cons.
  destruct (dangerous c) eqn:Hc.
  - rewrite decide_False; [exact IH | done].
  - rewrite decide_True; [simpl; by f_equal | done].
Qed.

(** C3: on a string, [sanitize_value] returns the string with exactly
    the characters [;], ['], the double quote and the backslash deleted
    (the other characters stay, in order); any other value is returned
    unchanged. In particular O'Brien;DROP becomes OBrienDROP and the
    integer 42 stays 42. *)
Theorem sanitize_value_spec :
  (∀ s, ∃ s', sanitize_value (VStr s) = VStr s'
       ∧ list_ascii_of_string s'
         = filter (λ c, c ∉ [";"%char; "'"%char; sql.dquote; "\"%char])
                  (list_ascii_of_string s))
  ∧ (∀ v, match v with VStr _ => True | _ => sanitize_value v = v end)
  ∧ sanitize_value (VStr "O'Brien;DROP") = VStr "OBrienDROP"
  ∧ sanitize_value (VInt 42) = VInt 42.
Proof.
  split; [|split; [by intros []|done]].
  intros s. exists (strip_dangerous s). split; [done|].
  rewrite strip_dangerous_filter.
  apply list_filter_iff. intros c. unfold dangerous.
  rewrite bool_decide_eq_false. done.
Qed.

End Sanitizer.

(** ** Rendering of composed fragments *)

Section Rendering.

Import sql.

Lemma string_app_cons c (s t : string) :
  String c s +:+ t = String c (s +:+ t).
Proof. done. Qed.

Lemma string_app_nil_r (s : string) : s +:+ EmptyString = s.
Proof.
  induction s as [|c s IH]; [done | by rewrite string_app_cons, IH].
Qed.

Lemma string_app_assoc (a b c : string) : (a +:+ b) +:+ c = a +:+ b +:+ c.
Proof.
  induction a as [|x a IH]; [done | by rewrite !string_app_cons, IH].
Qed.

Lemma as_string_Composed_nil : as_string (Composed []) = EmptyString.
Proof. done. Qed.

Lemma as_string_Composed_cons x l :
  as_string (Composed (x :: l)) = as_string x +:+ as_string (Composed l).
Proof. done. Qed.

Lemma as_string_Composed_app l1 l2 :
  as_string (Composed (l1 ++ l2))
  = as_string (Composed l1) +:+ as_string (Composed l2).
Proof.
  induction l1 as [|x l1 IH]; [done|].
  rewrite <- app_comm_cons, !as_string_Composed_cons, IH.
  by rewrite string_app_assoc.
Qed.

Lemma placeholders_Composed_cons x l :
  placeholders (Composed (x :: l)) = placeholders x + placeholders (Composed l).
Proof. done. Qed.

(** A joined sequence renders as the joined renderings. *)
Lemma as_string_join sep seq :
  as_string (join sep seq) = Str.join sep (as_string <$> seq).
Proof.
  destruct seq as [|x r]; [done|].
  unfold join. revert x. induction r as [|y r IH]; intros x.
  - simpl. by rewrite string_app_nil_r.
  - change (as_string (Composed (x :: SQL sep :: y :: flat_map (λ i, [SQL sep; i]) r))
            = as_string x +:+ sep +:+ Str.join sep (as_string <$> (y :: r))).
    rewrite <- IH. done.
Qed.

Lemma placeholders_separated sep r :
  placeholders (Composed (flat_map (λ i, [SQL sep; i]) r))
  = sum_list (placeholders <$> r).
Proof.
  induction r as [|y r IH]; [done|].
  change (flat_map (λ i, [SQL sep; i]) (y :: r))
    with (SQL sep :: y :: flat_map (λ i, [SQL sep; i]) r).
  rewrite !placeholders_Composed_cons, IH. done.
Qed.

(** A joined sequence has the placeholders of its elements. *)
Lemma placeholders_join sep seq :
  placeholders (join sep seq) = sum_list (placeholders <$> seq).
Proof.
  destruct seq as [|x r]; [done|].
  unfold join. by rewrite placeholders_Composed_cons, placeholders_separated.
Qed.

Lemma join_replicate_placeholder n :
  as_string (join ", " (replicate n Placeholder))
  = Str.join ", " (replicate n "%s").
Proof. rewrite as_string_join. by rewrite fmap_replicate. Qed.

Lemma placeholders_replicate n :
  placeholders (join ", " (replicate n Placeholder)) = n.
Proof.
  rewrite placeholders_join, fmap_replicate. simpl.
  induction n as [|n IH]; simpl; [done | by rewrite IH].
Qed.

End Rendering.

(** ** The statement builder *)

Section Builder.

Import sql.

Lemma condition_in table col op vs :
  validate_identifier table (Some col) = true →
  Str.upper op = "IN" →
  condition table (col, op, VList vs)
  = inr (Composed [Identifier col; SQL " IN (";
                   join ", " (replicate (List.length vs) Placeholder);
                   SQL ")"]).
Proof.
  intros Hcol Hop. unfold condition. rewrite Hcol. simpl.
  rewrite decide_True by done. reflexivity.
Qed.

Lemma condition_other table col op val :
  validate_identifier table (Some col) = true →
  Str.upper op ≠ "IN" →
  condition table (col, op, val)
  = inr (Composed [Identifier col; SQL " "; SQL op; SQL " "; Placeholder]).
Proof.
  intros Hcol Hop. unfold condition. rewrite Hcol. simpl.
  rewrite decide_False by done. reflexivity.
Qed.

(** An IN condition over [n] values renders with [n] placeholders. *)
Lemma in_condition_text col n :
  as_string (Composed [Identifier col; SQL " IN (";
                       join ", " (replicate n Placeholder); SQL ")"])
  = in_text col n.
Proof.
  rewrite !as_string_Composed_cons, join_replicate_placeholder.
  change (as_string (Composed [])) with EmptyString.
  by rewrite string_app_nil_r.
Qed.

Lemma in_condition_placeholders col n :
  placeholders (Composed [Identifier col; SQL " IN (";
                          join ", " (replicate n Placeholder); SQL ")"])
  = n.
Proof.
  rewrite !placeholders_Composed_cons, placeholders_replicate.
  simpl. lia.
Qed.

Lemma cond_params_in col op l :
  Str.upper op = "IN" → cond_params (col, op, VList l) = sanitize_value <$> l.
Proof. intros Hop. unfold cond_params. cbn [fst snd]. by rewrite decide_True. Qed.

Lemma cond_params_other col op val :
  Str.upper op ≠ "IN" → cond_params (col, op, val) = [sanitize_value val].
Proof. intros Hop. unfold cond_params. cbn [fst snd]. by rewrite decide_False. Qed.

(** A valid filter always yields a condition, with as many placeholders
    as it contributes parameters. *)
Lemma condition_valid table f :
  valid_filter table f →
  ∃ c, condition table f = inr c
       ∧ placeholders c = List.length (cond_params f).
Proof.
  destruct f as [[col op] val]. intros [Hcol Hin]. cbn [fst snd] in *.
  destruct (decide (Str.upper op = "IN")) as [Hop|Hop].
  - destruct (Hin Hop) as [l ->].
    eexists. split; [by apply condition_in|].
    by rewrite in_condition_placeholders, cond_params_in, length_fmap.
  - eexists. split; [by apply condition_other|].
    by rewrite cond_params_other.
Qed.

Lemma mapM_condition_valid table filters :
  Forall (valid_filter table) filters →
  ∃ conds, mapM (condition table) filters = inr conds
           ∧ Forall2 (λ f c, condition table f = inr c
                             ∧ placeholders c = List.length (cond_params f))
                     filters conds.
Proof.
  induction 1 as [|f filters Hf _ (conds & Hm & Hall)].
  - by exists [].
  - destruct (condition_valid _ _ Hf) as (c & Hc & Hn).
    exists (c :: conds). split; [|by constructor].
    simpl. rewrite Hc. simpl. rewrite Hm. done.
Qed.

Lemma mapM_Py_app {A B} (f : A → Py B) l1 l2 r1 r2 :
  mapM f l1 = inr r1 → mapM f l2 = inr r2 →
  mapM f (l1 ++ l2) = inr (r1 ++ r2).
Proof.
  revert r1. induction l1 as [|x l1 IH]; intros r1 H1 H2.
  - by injection H1 as <-.
  - cbn [mapM app] in *. destruct (f x) as [e|y]; [done|].
    cbn [mbind Py_bind bind] in *.
    destruct (mapM f l1) as [e|k] eqn:Hk; [done|].
    cbn [mbind Py_bind bind mret Py_ret ret] in *.
    injection H1 as <-. by rewrite (IH k eq_refl H2).
Qed.

Lemma placeholders_match_params table filters conds :
  Forall2 (λ f c, condition table f = inr c
                  ∧ placeholders c = List.length (cond_params f))
          filters conds →
  sum_list (placeholders <$> conds)
  = List.length (List.concat (cond_params <$> filters)).
Proof.
  induction 1 as [|f c filters conds [_ Hn] _ IH]; [done|].
  rewrite !fmap_cons. cbn [sum_list sum_list_with List.concat].
  rewrite length_app, <- IH, <- Hn. done.
Qed.

(** The text of a SELECT with conditions. *)
Lemma select_text table conds :
  as_string (Composed [Composed [SQL "SELECT * FROM "; Identifier table];
                       SQL " WHERE "; join " AND " conds])
  = "SELECT * FROM " +:+ quote_ident table +:+ " WHERE "
    +:+ Str.join " AND " (as_string <$> conds).
Proof.
  rewrite !as_string_Composed_cons, as_string_join.
  change (as_string (Composed [])) with EmptyString.
  by rewrite !string_app_nil_r, !string_app_assoc.
Qed.

(** The text of an UPDATE. *)
Lemma update_text table set_parts conds :
  as_string (Composed [SQL "UPDATE "; Identifier table; SQL " SET ";
                       join ", " set_parts; SQL " WHERE ";
                       join " AND " conds])
  = "UPDATE " +:+ quote_ident table +:+ " SET "
    +:+ Str.join ", " (as_string <$> set_parts) +:+ " WHERE "
    +:+ Str.join " AND " (as_string <$> conds).
Proof.
  rewrite !as_string_Composed_cons, !as_string_join.
  change (as_string (Composed [])) with EmptyString.
  by rewrite !string_app_nil_r.
Qed.

Lemma filter_params_valid table filters :
  Forall (valid_filter table) filters →
  filter_params filters = inr (List.concat (cond_params <$> filters)).
Proof.
  induction 1 as [|[[col op] val] filters [_ Hin] _ IH]; [done|].
  cbn [fst snd] in Hin.
  rewrite fmap_cons. cbn [List.concat filter_params]. rewrite IH.
  destruct (decide (Str.upper op = "IN")) as [Hop|Hop].
  - destruct (Hin Hop) as [l ->]. by rewrite cond_params_in.
  - by rewrite cond_params_other.
Qed.

Lemma first_invalid_none table cols :
  Forall (λ col, validate_identifier table (Some col) = true) cols →
  first_invalid table cols = None.
Proof.
  intros Hall. unfold first_invalid.
  induction Hall as [|col cols Hcol _ IH]; [done|].
  rewrite filter_cons_False; [exact IH | congruence].
Qed.

Lemma build_select_query_valid table filters conds :
  validate_identifier table None = true →
  filters ≠ [] →
  mapM (condition table) filters = inr conds →
  build_select_query table filters
  = inr (Composed [Composed [SQL "SELECT * FROM "; Identifier table];
                   SQL " WHERE "; join " AND " conds]).
Proof.
  intros Htable Hne Hm. destruct filters as [|f filters]; [done|].
  unfold build_select_query. rewrite Htable.
  change (negb true) with false. cbv iota.
  change (format "SELECT * FROM {}" [Identifier table])
    with (@inr PyExc _ (Composed [SQL "SELECT * FROM "; Identifier table])).
  cbn [mbind Py_bind bind]. rewrite Hm. reflexivity.
Qed.

Lemma build_update_query_valid table set_clauses set_parts where_clauses conds :
  validate_identifier table None = true →
  mapM (set_part table) set_clauses = inr set_parts →
  mapM (condition table) where_clauses = inr conds →
  build_update_query table set_clauses where_clauses
  = inr (Composed [SQL "UPDATE "; Identifier table; SQL " SET ";
                   join ", " set_parts; SQL " WHERE ";
                   join " AND " conds]).
Proof.
  intros Htable Hs Hm. unfold build_update_query. rewrite Htable.
  change (negb true) with false. cbv iota.
  rewrite Hs. cbn [mbind Py_bind bind]. rewrite Hm. reflexivity.
Qed.

End Builder.

(** ** What reaches the driver *)

Section Executed.

Import sql.

Context {DB : Type}.
Variable cursor_execute : DB → string → list Value → Py DB.
Variable fetchall : DB → list Dict.
Variable rowcount : DB → Z.

(** [execute_query] hands exactly one statement to the driver. *)
Lemma execute_query_executed query params (w : World DB) :
  executed (execute_query cursor_execute fetchall query params w).1
  = executed w ++ [(query, params)].
Proof.
  unfold execute_query. cbn [db executed out].
  destruct (cursor_execute (db w) query params) as [e|db']; [done|].
  by destruct (_ || _).
Qed.

Lemma emit_executed m (w : World DB) : executed (emit m w) = executed w.
Proof. done. Qed.

Lemma filter_multiple_values_executed table filters q ps (w : World DB) :
  first_invalid table (filters.*1.*1) = None →
  build_select_query table filters = inr q →
  filter_params filters = inr ps →
  executed (filter_multiple_values cursor_execute fetchall table filters w)
  = executed w ++ [(as_string q, ps)].
Proof.
  intros Hv Hq Hp. unfold filter_multiple_values.
  rewrite Hv, Hq. cbn [mbind Py_bind bind]. rewrite Hp.
  cbn [mbind Py_bind bind mret Py_ret ret].
  pose proof (execute_query_executed (as_string q) ps w) as Hex.
  destruct (execute_query _ _ _ _ w) as [w' results]. cbn [fst] in Hex.
  destruct results as [[|r rs]|]; by rewrite emit_executed.
Qed.

Lemma update_multiple_records_executed table fcol vs ucol newv q (w : World DB) :
  validate_identifier table (Some fcol) = true →
  validate_identifier table (Some ucol) = true →
  Str.endswith "_id" ucol = false →
  build_update_query table [(ucol, newv)] [(fcol, "IN", VList vs)] = inr q →
  executed (update_multiple_records cursor_execute fetchall rowcount
              table fcol vs ucol newv w)
  = executed w
    ++ [(as_string q, sanitize_value newv :: (sanitize_value <$> vs))].
Proof.
  intros Hf Hu Hid Hq. unfold update_multiple_records.
  rewrite Hf, Hu, Hid, Hq. cbn [negb].
  pose proof (execute_query_executed (as_string q)
                ([sanitize_value newv] ++ (sanitize_value <$> vs)) w) as Hex.
  destruct (execute_query _ _ _ _ w) as [w' results]. cbn [fst] in Hex.
  by rewrite emit_executed.
Qed.

End Executed.

(** ** IN conditions *)

Section InConditions.

Import sql.

Context {DB : Type}.
Variable cursor_execute : DB → string → list Value → Py DB.
Variable fetchall : DB → list Dict.
Variable rowcount : DB → Z.

Lemma mapM_set_part_valid table (set_clauses : list (string * Value)) :
  Forall (λ a, validate_identifier table (Some a.1) = true) set_clauses →
  mapM (set_part table) set_clauses
  = inr ((λ a, Composed [Identifier a.1; SQL " = "; Placeholder])
           <$> set_clauses).
Proof.
  induction 1 as [|[col val] set_clauses Hcol _ IH]; [done|].
  cbn [mapM fst] in *. rewrite IH.
  unfold set_part. rewrite Hcol. done.
Qed.

(** The SELECT half of C5, with the decomposition of text and
    parameters around the IN condition. *)
Lemma select_in_condition (w : World DB) table pre col op vs post :
  validate_identifier table None = true →
  Forall (valid_filter table) (pre ++ (col, op, VList vs) :: post) →
  Str.upper op = "IN" →
  ∃ cpre c cpost,
    mapM (condition table) pre = inr cpre
    ∧ condition table (col, op, VList vs) = inr c
    ∧ mapM (condition table) post = inr cpost
    ∧ placeholders c = List.length vs
    ∧ as_string c = in_text col (List.length vs)
    ∧ executed (filter_multiple_values cursor_execute fetchall table
                  (pre ++ (col, op, VList vs) :: post) w)
      = executed w
        ++ [("SELECT * FROM " +:+ quote_ident table +:+ " WHERE "
             +:+ Str.join " AND " (as_string <$> (cpre ++ c :: cpost)),
             List.concat (cond_params <$> pre)
             ++ (sanitize_value <$> vs)
             ++ List.concat (cond_params <$> post))]
    ∧ List.length (List.concat (cond_params <$> pre))
      = sum_list (placeholders <$> cpre)
    ∧ List.length (List.concat (cond_params <$> post))
      = sum_list (placeholders <$> cpost).
Proof.
  intros Htable Hall Hop.
  pose proof Hall as Hall'.
  apply Forall_app in Hall' as [Hpre Hrest].
  apply Forall_cons in Hrest as [Hf Hpost].
  destruct (mapM_condition_valid _ _ Hpre) as (cpre & Hmpre & H2pre).
  destruct (mapM_condition_valid _ _ Hpost) as (cpost & Hmpost & H2post).
  destruct Hf as [Hcol _]. cbn [fst snd] in Hcol.
  pose proof (condition_in table col op vs Hcol Hop) as Hc.
  eexists cpre, _, cpost.
  split; [done|]. split; [exact Hc|]. split; [done|].
  split; [apply in_condition_placeholders|].
  split; [apply in_condition_text|].
  split; [|split; symmetry; by eapply placeholders_match_params].
  erewrite filter_multiple_values_executed.
  - rewrite select_text. reflexivity.
  - apply first_invalid_none.
    rewrite !Forall_fmap. eapply Forall_impl; [exact Hall|].
    by intros f [Hv _].
  - apply build_select_query_valid; [done|by destruct pre|].
    apply mapM_Py_app; [done|].
    cbn [mapM]. rewrite Hc, Hmpost. done.
  - erewrite filter_params_valid by done.
    by rewrite fmap_app, fmap_cons, concat_app, cond_params_in.
Qed.

(** The UPDATE half of C5: [update_multiple_records]. *)
Lemma update_in_condition (w : World DB) table col vs ucol newv :
  validate_identifier table None = true →
  validate_identifier table (Some col) = true →
  validate_identifier table (Some ucol) = true →
  Str.endswith "_id" ucol = false →
  executed (update_multiple_records cursor_execute fetchall rowcount
              table col vs ucol newv w)
  = executed w
    ++ [("UPDATE " +:+ quote_ident table +:+ " SET " +:+ quote_ident ucol
         +:+ " = %s WHERE " +:+ in_text col (List.length vs),
         sanitize_value newv :: (sanitize_value <$> vs))].
Proof.
  intros Htable Hcol Hucol Hid.
  assert (mapM (set_part table) [(ucol, newv)]
          = inr [Composed [Identifier ucol; SQL " = "; Placeholder]]) as Hs.
  { apply (mapM_set_part_valid table [(ucol, newv)]). by constructor. }
  assert (mapM (condition table) [(col, "IN", VList vs)]
          = inr [Composed [Identifier col; SQL " IN (";
                           join ", " (replicate (List.length vs) Placeholder);
                           SQL ")"]]) as Hm.
  { cbn [mapM]. by rewrite (condition_in table col "IN" vs Hcol eq_refl). }
  pose proof (build_update_query_valid _ _ _ _ _ Htable Hs Hm) as Hq.
  rewrite (update_multiple_records_executed _ _ _ _ _ _ _ _ _ _
             Hcol Hucol Hid Hq).
  rewrite update_text. do 2 f_equal. f_equal.
  cbn [fmap list_fmap app fst]. unfold Str.join. cbn [String.concat].
  rewrite in_condition_text.
  change (as_string (Composed [Identifier ucol; SQL " = "; Placeholder]))
    with (quote_ident ucol +:+ " = %s").
  by rewrite !string_app_assoc.
Qed.

End InConditions.

Section BuilderClaims.

Import sql.

(** The conditions of a valid filter list around one IN filter. *)
Lemma conditions_around_in table pre col op vs post :
  Forall (valid_filter table) (pre ++ (col, op, VList vs) :: post) →
  Str.upper op = "IN" →
  ∃ cpre cpost,
    mapM (condition table) pre = inr cpre
    ∧ mapM (condition table) post = inr cpost
    ∧ mapM (condition table) (pre ++ (col, op, VList vs) :: post)
      = inr (cpre
             ++ Composed [Identifier col; SQL " IN (";
                          join ", " (replicate (List.length vs) Placeholder);
                          SQL ")"] :: cpost).
Proof.
  intros Hall Hop.
  apply Forall_app in Hall as [Hpre Hrest].
  apply Forall_cons in Hrest as [[Hcol _] Hpost]. cbn [fst snd] in Hcol.
  destruct (mapM_condition_valid _ _ Hpre) as (cpre & Hmpre & _).
  destruct (mapM_condition_valid _ _ Hpost) as (cpost & Hmpost & _).
  exists cpre, cpost. split; [done|]. split; [done|].
  apply mapM_Py_app; [done|].
  cbn [mapM]. rewrite (condition_in table col op vs Hcol Hop), Hmpost. done.
Qed.

(** C4 (as stated, refuted): a SELECT over [products] with an IN
    condition on an empty list is built without error, and its text
    ends in an empty parenthesis. *)
Lemma empty_in_list_is_built :
  ∃ q, build_select_query "products" [("category_id", "IN", VList [])] = inr q
       ∧ as_string q
         = "SELECT * FROM " +:+ quote_ident "products" +:+ " WHERE "
           +:+ quote_ident "category_id" +:+ " IN ()".
Proof. eexists. split; reflexivity. Qed.

(** C4 (amended): an IN condition with an empty value list is not
    rejected by the builder. For a registered table and valid filters
    and assignments, [build_select_query] and [build_update_query] both
    return a statement, in which that condition is the quoted column
    followed by IN and an empty parenthesis, without any placeholder. *)
Theorem empty_in_list_rendered table pre col op post :
  validate_identifier table None = true →
  Forall (valid_filter table) (pre ++ (col, op, VList []) :: post) →
  Str.upper op = "IN" →
  ∃ cpre cpost,
    mapM (condition table) pre = inr cpre
    ∧ mapM (condition table) post = inr cpost
    ∧ (∃ q, build_select_query table (pre ++ (col, op, VList []) :: post)
            = inr q
            ∧ as_string q
              = "SELECT * FROM " +:+ quote_ident table +:+ " WHERE "
                +:+ Str.join " AND "
                      ((as_string <$> cpre)
                       ++ (quote_ident col +:+ " IN ()")
                          :: (as_string <$> cpost)))
    ∧ (∀ set_clauses : list (string * Value),
         Forall (λ a, validate_identifier table (Some a.1) = true) set_clauses →
         ∃ q, build_update_query table set_clauses
                (pre ++ (col, op, VList []) :: post) = inr q
              ∧ as_string q
                = "UPDATE " +:+ quote_ident table +:+ " SET "
                  +:+ Str.join ", "
                        ((λ a, quote_ident a.1 +:+ " = %s") <$> set_clauses)
                  +:+ " WHERE "
                  +:+ Str.join " AND "
                        ((as_string <$> cpre)
                         ++ (quote_ident col +:+ " IN ()")
                            :: (as_string <$> cpost))).
Proof.
  intros Htable Hall Hop.
  destruct (conditions_around_in _ _ _ _ _ _ Hall Hop)
    as (cpre & cpost & Hmpre & Hmpost & Hm).
  exists cpre, cpost. split; [done|]. split; [done|]. split.
  - eexists. split.
    + apply build_select_query_valid; [done|by destruct pre|exact Hm].
    + rewrite select_text, fmap_app, fmap_cons, in_condition_text.
      reflexivity.
  - intros set_clauses Hset. eexists. split.
    + apply build_update_query_valid; [done| |exact Hm].
      by apply mapM_set_part_valid.
    + rewrite update_text, fmap_app, fmap_cons, in_condition_text.
      rewrite <- list_fmap_compose. reflexivity.
Qed.

Lemma empty_in_list_rendered_witness :
  ∃ q, build_select_query "products"
         [("price", ">", VInt 10); ("category_id", "in", VList [])] = inr q
       ∧ as_string q
         = "SELECT * FROM " +:+ quote_ident "products" +:+ " WHERE "
           +:+ quote_ident "price" +:+ " > %s AND "
           +:+ quote_ident "category_id" +:+ " IN ()".
Proof.
  destruct (empty_in_list_rendered "products" [("price", ">", VInt 10)]
              "category_id" "in" [])
    as (cpre & cpost & Hpre & Hpost & (q & Hq & Htext) & _).
  - reflexivity.
  - apply Forall_cons; split.
    { split; [reflexivity | intros H; vm_compute in H; discriminate]. }
    apply Forall_cons; split; [|apply Forall_nil_2].
    split; [reflexivity | intros _; by eexists].
  - reflexivity.
  - injection Hpre as <-. injection Hpost as <-.
    exists q. split; [exact Hq | exact Htext].
Defined.

End BuilderClaims.

Section ParameterClaims.

Import sql.

(** C5 (as stated, refuted): the driver does not receive the values of
    the IN list as they were given; a quote inside a string value is
    gone from the parameter. *)
Lemma in_values_are_not_passed_unchanged :
  ¬ ∃ text,
      executed (filter_multiple_values accept_all no_rows "products"
                  [("sku", "IN", VList [VStr "a'b"])] fresh)
      = [(text, [VStr "a'b"])].
Proof. intros [text H]. vm_compute in H. by injection H. Qed.

(** C5 (amended): for a registered table and a valid filter list with
    an IN condition over N values, the SELECT handed to the driver by
    [filter_multiple_values] renders that condition with exactly N
    placeholders, and the parameter list holds the N values after
    [sanitize_value], in their order, between the parameters of the
    conditions before and after it (as many as those conditions have
    placeholders). The UPDATE handed over by [update_multiple_records]
    has the placeholder of the assignment first and then the N
    placeholders of the IN condition, with parameters in that order. *)
Theorem in_condition_placeholders_and_parameters {DB : Type}
    (cursor_execute : DB → string → list Value → Py DB)
    (fetchall : DB → list Dict) (rowcount : DB → Z) (w : World DB)
    (table col op : string) (vs : list Value) :
  validate_identifier table None = true →
  validate_identifier table (Some col) = true →
  Str.upper op = "IN" →
  (∀ pre post,
     Forall (valid_filter table) pre → Forall (valid_filter table) post →
     ∃ cpre c cpost,
       mapM (condition table) pre = inr cpre
       ∧ condition table (col, op, VList vs) = inr c
       ∧ mapM (condition table) post = inr cpost
       ∧ placeholders c = List.length vs
       ∧ as_string c = in_text col (List.length vs)
       ∧ executed (filter_multiple_values cursor_execute fetchall table
                     (pre ++ (col, op, VList vs) :: post) w)
         = executed w
           ++ [("SELECT * FROM " +:+ quote_ident table +:+ " WHERE "
                +:+ Str.join " AND " (as_string <$> (cpre ++ c :: cpost)),
                List.concat (cond_params <$> pre)
                ++ (sanitize_value <$> vs)
                ++ List.concat (cond_params <$> post))]
       ∧ List.length (List.concat (cond_params <$> pre))
         = sum_list (placeholders <$> cpre)
       ∧ List.length (List.concat (cond_params <$> post))
         = sum_list (placeholders <$> cpost))
  ∧ (∀ ucol newv,
       validate_identifier table (Some ucol) = true →
       Str.endswith "_id" ucol = false →
       executed (update_multiple_records cursor_execute fetchall rowcount
                   table col vs ucol newv w)
       = executed w
         ++ [("UPDATE " +:+ quote_ident table +:+ " SET "
              +:+ quote_ident ucol +:+ " = %s WHERE "
              +:+ in_text col (List.length vs),
              sanitize_value newv :: (sanitize_value <$> vs))]).
Proof.
  intros Htable Hcol Hop. split.
  - intros pre post Hpre Hpost.
    apply select_in_condition; [done| |done].
    apply Forall_app; split; [done|].
    apply Forall_cons; split; [|done].
    split; [done | intros _; by eexists].
  - intros ucol newv Hucol Hid. by apply update_in_condition.
Qed.

Lemma in_condition_placeholders_and_parameters_witness :
  executed (update_multiple_records accept_all no_rows no_count
              "products" "category_id" [VInt 1; VInt 2; VInt 3]
              "price" (VStr "9;99") fresh)
  = [("UPDATE " +:+ quote_ident "products" +:+ " SET "
      +:+ quote_ident "price" +:+ " = %s WHERE "
      +:+ quote_ident "category_id" +:+ " IN (%s, %s, %s)",
      [VStr "999"; VInt 1; VInt 2; VInt 3])].
Proof.
  apply (proj2 (in_condition_placeholders_and_parameters
                  accept_all no_rows no_count fresh
                  "products" "category_id" "IN" [VInt 1; VInt 2; VInt 3]
                  eq_refl eq_refl eq_refl)
           "price" (VStr "9;99") eq_refl eq_refl).
Defined.

(** C8 (as stated, refuted): the text built for the two conditions on
    [products] is not the one with bare names and question marks. *)
Lemma select_text_is_not_bare :
  ¬ ∃ q, build_select_query "products"
           [("price", ">", VInt 10);
            ("category_id", "IN", VList [VInt 1; VInt 2; VInt 3])] = inr q
         ∧ as_string q
           = "SELECT * FROM products WHERE price > ? AND category_id IN (?, ?, ?)".
Proof.
  intros (q & Hq & Htext). vm_compute in Hq. injection Hq as <-.
  vm_compute in Htext. discriminate.
Qed.

(** C8 (amended): the SELECT against [products] with the conditions
    price > 10 and category_id IN [1, 2, 3] has the text below, with
    quoted identifiers and the driver's placeholder, and
    [filter_multiple_values] hands it to the driver with the parameter
    list [10, 1, 2, 3]. *)
Theorem select_products_round_trip {DB : Type}
    (cursor_execute : DB → string → list Value → Py DB)
    (fetchall : DB → list Dict) (w : World DB) :
  let filters := [("price", ">", VInt 10);
                  ("category_id", "IN", VList [VInt 1; VInt 2; VInt 3])] in
  let text := "SELECT * FROM " +:+ quote_ident "products" +:+ " WHERE "
              +:+ quote_ident "price" +:+ " > %s AND "
              +:+ quote_ident "category_id" +:+ " IN (%s, %s, %s)" in
  (∃ q, build_select_query "products" filters = inr q ∧ as_string q = text)
  ∧ executed (filter_multiple_values cursor_execute fetchall
                "products" filters w)
    = executed w ++ [(text, [VInt 10; VInt 1; VInt 2; VInt 3])].
Proof.
  intros filters text. split.
  - eexists. split; reflexivity.
  - by rewrite (filter_multiple_values_executed cursor_execute fetchall
                  "products" filters _ _ w eq_refl eq_refl eq_refl).
Qed.

(** C1 (the code at the failing input): an operator outside the eight
    listed ones is not rejected; [build_select_query] and
    [build_update_query] return a statement with the token copied into
    its text. *)
Theorem unknown_operator_is_embedded :
  (∃ q, build_select_query "products" [("price", "= 0 OR 1=1 --", VInt 10)]
        = inr q
        ∧ as_string q
          = "SELECT * FROM " +:+ quote_ident "products" +:+ " WHERE "
            +:+ quote_ident "price" +:+ " = 0 OR 1=1 -- %s")
  ∧ (∃ q, build_update_query "products" [("price", VInt 0)]
            [("sku", "IS NOT NULL OR sku =", VStr "x")] = inr q
          ∧ as_string q
            = "UPDATE " +:+ quote_ident "products" +:+ " SET "
              +:+ quote_ident "price" +:+ " = %s WHERE "
              +:+ quote_ident "sku" +:+ " IS NOT NULL OR sku = %s").
Proof. split; eexists; split; reflexivity. Qed.

End ParameterClaims.

(** ** Guards of the operations *)

Section Guards.

Import sql.

Context {DB : Type}.
Variable cursor_execute : DB → string → list Value → Py DB.
Variable fetchall : DB → list Dict.
Variable rowcount : DB → Z.

Lemma keys_differ_true record columns :
  list_to_set (C := gset string) (keys record)
  ≠ list_to_set (C := gset string) columns →
  keys_differ record columns = true.
Proof. intros H. by apply bool_decide_eq_true. Qed.

Lemma some_record_differs (records : list Dict) first r1 r2 :
  r1 ∈ records → r2 ∈ records →
  list_to_set (C := gset string) (keys r1)
  ≠ list_to_set (C := gset string) (keys r2) →
  existsb (λ record, keys_differ record (keys first)) records = true.
Proof.
  intros H1 H2 Hne. apply existsb_exists.
  destruct (decide (list_to_set (C := gset string) (keys r1)
                    = list_to_set (C := gset string) (keys first)))
    as [Heq|Hdiff].
  - exists r2. split; [by apply list_elem_of_In|].
    apply keys_differ_true. congruence.
  - exists r1. split; [by apply list_elem_of_In|].
    by apply keys_differ_true.
Qed.

(** C7: a multi-row insert in which two rows have different column
    sets is refused with the message that all records must have the
    same columns; the function returns nothing and no statement is
    built or handed to the driver. *)
Theorem insert_multiple_records_column_mismatch
    (w : World DB) table (records : list Dict) r1 r2 :
  r1 ∈ records → r2 ∈ records →
  list_to_set (C := gset string) (keys r1)
  ≠ list_to_set (C := gset string) (keys r2) →
  insert_multiple_records cursor_execute fetchall rowcount table records w
  = (emit ErrSameColumns w, None)
  ∧ executed (insert_multiple_records cursor_execute fetchall rowcount
                table records w).1 = executed w.
Proof.
  intros H1 H2 Hne.
  assert (insert_multiple_records cursor_execute fetchall rowcount
            table records w = (emit ErrSameColumns w, None)) as ->; [|done].
  unfold insert_multiple_records.
  destruct records as [|first rest]; [by apply elem_of_nil in H1|].
  by rewrite (some_record_differs (first :: rest) first r1 r2 H1 H2 Hne).
Qed.

(** [(singular + "s")[:-1]] is the singular again. *)
Lemma drop_last_plural (singular : string) :
  Str.drop_last (singular +:+ "s") = singular.
Proof.
  induction singular as [|c singular IH]; [done|].
  rewrite string_app_cons. cbn [Str.drop_last].
  destruct (singular +:+ "s") as [|c' rest] eqn:Happ.
  - by destruct singular.
  - by rewrite IH.
Qed.

(** C6 (amended): [update_single_record] refuses with the message that
    identifier columns cannot be updated, before building anything,
    every update whose keys include [id], and, for a table whose name is
    a singular followed by s, every update whose keys include that
    singular followed by _id (product_id for products); and
    [update_multiple_records] never reaches the builder when the column
    to update ends in _id. In all these cases nothing is handed to the
    driver and the column is not dropped from the request. *)
Theorem id_column_update_rejected (w : World DB) table :
  (∀ record_id updates,
     dict_has "id" updates = true →
     update_single_record cursor_execute fetchall rowcount
       table record_id updates w
     = emit ErrCannotUpdateId w)
  ∧ (∀ singular record_id updates,
       table = singular +:+ "s" →
       dict_has (singular +:+ "_id") updates = true →
       update_single_record cursor_execute fetchall rowcount
         table record_id updates w
       = emit ErrCannotUpdateId w)
  ∧ (∀ fcol fvals ucol newv,
       Str.endswith "_id" ucol = true →
       ∃ m, update_multiple_records cursor_execute fetchall rowcount
              table fcol fvals ucol newv w = emit m w
            ∧ m ∈ [ErrInvalidFilterColumn fcol; ErrInvalidUpdateColumn ucol;
                   ErrCannotUpdateId]).
Proof.
  split; [|split].
  - intros record_id updates Hid. unfold update_single_record.
    by rewrite Hid.
  - intros singular record_id updates -> Hpk. unfold update_single_record.
    rewrite drop_last_plural, Hpk. by rewrite orb_true_r.
  - intros fcol fvals ucol newv Hid. unfold update_multiple_records.
    destruct (validate_identifier table (Some fcol)); cbn [negb];
      [|eexists; split; [done|set_solver]].
    destruct (validate_identifier table (Some ucol)); cbn [negb];
      [|eexists; split; [done|set_solver]].
    rewrite Hid. eexists; split; [done|set_solver].
Qed.

End Guards.

(** C7, at two rows with different keys. *)
Lemma insert_multiple_records_column_mismatch_witness :
  insert_multiple_records accept_all no_rows no_count "categories"
    [[("category_name", VStr "Tools")]; [("description", VStr "Hand tools")]]
    fresh
  = (emit ErrSameColumns fresh, None).
Proof.
  apply (insert_multiple_records_column_mismatch accept_all no_rows no_count
           fresh "categories" _
           [("category_name", VStr "Tools")]
           [("description", VStr "Hand tools")]).
  - set_solver.
  - set_solver.
  - apply (bool_decide_unpack _). vm_compute. exact I.
Defined.

(** C6 (as stated, refuted): the builder accepts an assignment to the
    primary key of [products] and returns the statement. *)
Lemma primary_key_assignment_is_built :
  ∃ q, build_update_query "products" [("product_id", VInt 7)]
         [("product_id", "=", VInt 1)] = inr q
       ∧ sql.as_string q
         = "UPDATE " +:+ sql.quote_ident "products" +:+ " SET "
           +:+ sql.quote_ident "product_id" +:+ " = %s WHERE "
           +:+ sql.quote_ident "product_id" +:+ " = %s".
Proof. eexists. split; reflexivity. Qed.

(** C6 (amended), at an update of [products] that names [product_id]
    and at one that names [id]. *)
Lemma id_column_update_rejected_witness :
  update_single_record accept_all no_rows no_count "products" (VInt 1)
    [("price", VInt 3); ("product_id", VInt 9)] fresh
  = emit ErrCannotUpdateId fresh
  ∧ update_single_record accept_all no_rows no_count "suppliers" (VInt 1)
      [("id", VInt 9); ("phone", VStr "555")] fresh
    = emit ErrCannotUpdateId fresh.
Proof.
  split.
  - apply (proj1 (proj2 (id_column_update_rejected accept_all no_rows
                           no_count fresh "products"))
             "product" (VInt 1) [("price", VInt 3); ("product_id", VInt 9)]).
    + reflexivity.
    + reflexivity.
  - apply (proj1 (id_column_update_rejected accept_all no_rows no_count
                    fresh "suppliers")).
    reflexivity.
Defined.

(** ** The related-record insertion helper *)

Section Related.

Import sql.

Context {DB : Type}.
Variable cursor_execute : DB → string → list Value → Py DB.
Variable fetchall : DB → list Dict.

(** Every statement of [build_insert_query] starts with INSERT INTO. *)
Lemma build_insert_query_prefix table columns values_list q :
  build_insert_query table columns values_list = inr q →
  ∃ rest, as_string q = "INSERT INTO " +:+ rest.
Proof.
  unfold build_insert_query.
  destruct (negb (validate_identifier table None)); [done|].
  destruct (check_columns table columns) as [e|[]]; [done|].
  cbn [mbind Py_bind bind].
  destruct (mapM _ values_list) as [e|vps]; [done|].
  cbn [mbind Py_bind bind]. intros Hq.
  lazy [format parse fill mbind Py_bind bind mret Py_ret ret app String.append]
    in Hq.
  injection Hq as <-. eexists. reflexivity.
Qed.

Lemma startswith_app p rest : Str.startswith p (p +:+ rest) = true.
Proof.
  unfold Str.startswith. induction p as [|c p IH].
  - by destruct rest.
  - rewrite string_app_cons. cbn [String.prefix].
    by destruct (ascii_dec c c).
Qed.

(** Stripping keeps a leading character that is not white space. *)
Lemma strip_head c s :
  Str.is_space c = false → ∃ r, Str.strip (String c s) = String c r.
Proof.
  intros Hc. unfold Str.strip. cbn [Str.lstrip]. rewrite Hc.
  cbn [Str.rstrip]. rewrite Hc. destruct (Str.rstrip s); eauto.
Qed.

(** For an INSERT, [execute_query] returns no rows, whether the
    driver raised or not. *)
Lemma execute_query_insert rest params (w : World DB) :
  (execute_query cursor_execute fetchall ("INSERT INTO " +:+ rest) params w).2
  = None.
Proof.
  unfold execute_query. cbn [db executed out].
  destruct (cursor_execute _ _ _) as [e|db']; [done|].
  destruct (strip_head "I" ("NSERT INTO " +:+ rest) eq_refl) as [r Hr].
  change ("INSERT INTO " +:+ rest) with (String "I" ("NSERT INTO " +:+ rest)).
  rewrite Hr. reflexivity.
Qed.

(** As a consequence [insert_single_record] never returns a row. *)
Lemma insert_single_record_returns_nothing table data (w : World DB) :
  (insert_single_record cursor_execute fetchall table data w).2 = None.
Proof.
  unfold insert_single_record.
  destruct (first_invalid table (keys data)); [done|].
  destruct (build_insert_query _ _ _) as [e|q] eqn:Hq; [done|].
  destruct (build_insert_query_prefix _ _ _ _ Hq) as [rest ->].
  pose proof (execute_query_insert rest (sanitize_value <$> values data) w)
    as Hnone.
  destruct (execute_query _ _ _ _ w) as [w' result].
  cbn [snd] in Hnone. by subst result.
Qed.

(** What [insert_single_record] hands to the driver: nothing, or one
    INSERT. *)
Lemma insert_single_record_executed table data (w : World DB) :
  ∃ calls,
    executed (insert_single_record cursor_execute fetchall table data w).1
    = executed w ++ calls
    ∧ Forall (λ c, Str.startswith "INSERT INTO " c.1 = true) calls.
Proof.
  unfold insert_single_record.
  destruct (first_invalid table (keys data)).
  { exists []. by rewrite app_nil_r. }
  destruct (build_insert_query _ _ _) as [e|q] eqn:Hq.
  { exists []. by rewrite app_nil_r. }
  destruct (build_insert_query_prefix _ _ _ _ Hq) as [rest Hrest].
  pose proof (execute_query_executed cursor_execute fetchall (as_string q)
                (sanitize_value <$> values data) w) as Hex.
  destruct (execute_query _ _ _ _ w) as [w' result]. cbn [fst] in Hex.
  exists [(as_string q, sanitize_value <$> values data)]. split.
  - by destruct result as [[|row rows]|].
  - constructor; [|done]. cbn [fst]. rewrite Hrest. apply startswith_app.
Qed.

Lemma related_loop_executed tables_data rest :
  ∀ i inserted_ids (w : World DB),
  ∃ calls,
    executed (related_loop cursor_execute fetchall tables_data i rest
                inserted_ids w).1
    = executed w ++ calls
    ∧ Forall (λ c, Str.startswith "INSERT INTO " c.1 = true) calls.
Proof.
  induction rest as [|[[table data] idc] rest IH]; intros i ids w.
  { exists []. by rewrite app_nil_r. }
  cbn [related_loop].
  destruct (if (0 <? i)%nat && truthy_str (Some idc)
            then link_previous tables_data i (keys data) ids data
            else mret data) as [e|data'].
  { exists []. by rewrite app_nil_r. }
  destruct (insert_single_record_executed table data' w)
    as (calls1 & Hex1 & Hins1).
  destruct (insert_single_record _ _ table data' w) as [w1 result].
  cbn [fst] in Hex1.
  destruct (capture_id result idc ids) as [e|ids'].
  { exists calls1. by split. }
  destruct (IH (S i) ids' w1) as (calls2 & Hex2 & Hins2).
  exists (calls1 ++ calls2). split.
  - by rewrite Hex2, Hex1, app_assoc.
  - by apply Forall_app.
Qed.

(** C9 (amended): [insert_related_records] never rolls back or deletes:
    every statement it hands to the driver is an INSERT. And when the
    driver refuses the insert for a position, the loop does not stop:
    the failure is logged, no identifier is added, and the loop goes on
    with the next position. *)
Theorem related_insert_failure_goes_on (tables_data : list Related) :
  (∀ w : World DB,
     ∃ calls,
       executed (insert_related_records cursor_execute fetchall
                   tables_data w).1
       = executed w ++ calls
       ∧ Forall (λ c, Str.startswith "INSERT INTO " c.1 = true) calls)
  ∧ (∀ i table data id_column rest inserted_ids (w : World DB) data' q e,
       (if (0 <? i)%nat && truthy_str (Some id_column)
        then link_previous tables_data i (keys data) inserted_ids data
        else mret data) = inr data' →
       first_invalid table (keys data') = None →
       build_insert_query table (keys data') [values data'] = inr q →
       cursor_execute (db w) (as_string q) (sanitize_value <$> values data')
       = inl e →
       related_loop cursor_execute fetchall tables_data i
         ((table, data, id_column) :: rest) inserted_ids w
       = related_loop cursor_execute fetchall tables_data (S i)
           rest inserted_ids
           (emit (LogQueryFailed e)
              (mkWorld (db w)
                 (executed w
                  ++ [(as_string q, sanitize_value <$> values data')])
                 (out w)))).
Proof.
  split.
  - intros w. unfold insert_related_records.
    destruct (related_loop_executed tables_data tables_data 0 [] w)
      as (calls & Hex & Hins).
    destruct (related_loop _ _ _ _ _ _ w) as [w' [e|ids]];
      exists calls; by split.
  - intros i table data idc rest ids w data' q e Hlink Hvalid Hq Hfail.
    cbn [related_loop]. rewrite Hlink.
    unfold insert_single_record. rewrite Hvalid, Hq.
    unfold execute_query. cbn [db executed out]. rewrite Hfail.
    reflexivity.
Qed.

End Related.

(** C9 (amended), at a list whose first insert the driver refuses. *)
Lemma related_insert_failure_goes_on_witness :
  related_loop refuse_categories no_rows category_then_supplier 0
    category_then_supplier [] fresh
  = related_loop refuse_categories no_rows category_then_supplier 1
      [("suppliers", [("supplier_name", VStr "Acme")], "supplier_id")] []
      (mkWorld tt
         [(insert_one_text "categories" "category_name", [VStr "Tools"])]
         [LogQueryFailed
            (ValueError "permission denied for table categories")]).
Proof.
  apply (proj2 (related_insert_failure_goes_on refuse_categories no_rows
                  category_then_supplier)
           0 "categories" [("category_name", VStr "Tools")] "category_id"
           [("suppliers", [("supplier_name", VStr "Acme")], "supplier_id")]
           [] fresh [("category_name", VStr "Tools")] _
           (ValueError "permission denied for table categories")
           eq_refl eq_refl eq_refl eq_refl).
Defined.

(** C9 (as stated, refuted): the driver refuses the first insert of the
    list, and the helper still performs the insert of the second
    position. *)
Lemma failed_insert_does_not_stop_the_helper :
  refuse_categories tt (insert_one_text "categories" "category_name")
    [VStr "Tools"]
  = inl (ValueError "permission denied for table categories")
  ∧ insert_related_records refuse_categories no_rows
      category_then_supplier fresh
    = (mkWorld tt
         [(insert_one_text "categories" "category_name", [VStr "Tools"]);
          (insert_one_text "suppliers" "supplier_name", [VStr "Acme"])]
         [LogQueryFailed
            (ValueError "permission denied for table categories");
          InsertedRelated 2],
       Some []).
Proof. split; reflexivity. Qed.

(** * Further properties of the code *)

(** ** The sanitizer, again *)

Section SanitizerMore.

Lemma strip_dangerous_clean (s : string) : clean (strip_dangerous s) = true.
Proof.
  induction s as [|c s IH]; [done|].
  cbn [strip_dangerous]. destruct (dangerous c) eqn:Hc; [done|].
  cbn [clean]. by rewrite Hc, IH.
Qed.

Lemma strip_dangerous_id (s : string) :
  clean s = true → strip_dangerous s = s.
Proof.
  induction s as [|c s IH]; [done|].
  cbn [clean strip_dangerous]. intros [Hc Hs]%andb_true_iff.
  apply negb_true_iff in Hc. rewrite Hc. by rewrite IH.
Qed.

Lemma strip_dangerous_length (s : string) :
  (String.length (strip_dangerous s) ≤ String.length s)%nat.
Proof.
  induction s as [|c s IH]; [done|].
  cbn [strip_dangerous]. destruct (dangerous c); cbn [String.length]; lia.
Qed.

(** X1: [sanitize_value] is idempotent, its result on a string holds
    none of the four deleted characters and is never longer than the
    input, and a string without those characters comes back unchanged. *)
Theorem sanitize_value_idempotent :
  (∀ v, sanitize_value (sanitize_value v) = sanitize_value v)
  ∧ (∀ s, ∃ s', sanitize_value (VStr s) = VStr s'
          ∧ clean s' = true
          ∧ (String.length s' ≤ String.length s)%nat
          ∧ (s' = s ↔ clean s = true)).
Proof.
  split.
  - intros []; try done. cbn [sanitize_value].
    by rewrite strip_dangerous_id by apply strip_dangerous_clean.
  - intros s. exists (strip_dangerous s).
    split; [done|]. split; [apply strip_dangerous_clean|].
    split; [apply strip_dangerous_length|]. split.
    + intros <-. apply strip_dangerous_clean.
    + apply strip_dangerous_id.
Qed.

End SanitizerMore.

(** ** The values typed for an IN condition *)

Section TypedValues.

Lemma split_commas_length cur s :
  List.length (split_commas cur s) = S (count_char ","%char s).
Proof.
  revert cur. induction s as [|c s IH]; intros cur; [done|].
  cbn [split_commas count_char].
  destruct (decide (c = ","%char)); cbn [List.length]; by rewrite IH.
Qed.

(** X2: the list of values the menus read for an IN condition has one
    element more than the stripped line has commas; it is never empty,
    also for an empty line. *)
Theorem typed_values_never_empty (line : string) :
  List.length (typed_values line) = S (count_char ","%char (Str.strip line))
  ∧ typed_values line ≠ [].
Proof.
  assert (List.length (typed_values line)
          = S (count_char ","%char (Str.strip line))) as Hlen.
  { unfold typed_values. by rewrite length_fmap, split_commas_length. }
  split; [done|]. intros Hnil. by rewrite Hnil in Hlen.
Qed.

End TypedValues.

(** ** What a built statement guarantees *)

Section BuilderSound.

Import sql.

Lemma mapM_Py_inv {A B} (f : A → Py B) l r :
  mapM f l = inr r → Forall2 (λ x y, f x = inr y) l r.
Proof.
  revert r. induction l as [|x l IH]; intros r Hm.
  - injection Hm as <-. constructor.
  - cbn [mapM] in Hm. destruct (f x) as [e|y] eqn:Hx; [done|].
    cbn [mbind Py_bind bind] in Hm.
    destruct (mapM f l) as [e|k]; [done|].
    injection Hm as <-. constructor; [done | by apply IH].
Qed.

Lemma condition_inr_valid table f c :
  condition table f = inr c → validate_identifier table (Some f.1.1) = true.
Proof.
  destruct f as [[col op] val]. unfold condition. cbn [fst snd].
  by destruct (validate_identifier table (Some col)).
Qed.

Lemma set_part_inr_valid table (a : string * Value) c :
  set_part table a = inr c → validate_identifier table (Some a.1) = true.
Proof.
  destruct a as [col val]. unfold set_part. cbn [fst].
  by destruct (validate_identifier table (Some col)).
Qed.

Lemma check_columns_inr table columns u :
  check_columns table columns = inr u →
  Forall (λ col, validate_identifier table (Some col) = true) columns.
Proof.
  induction columns as [|col columns IH]; [constructor|].
  cbn [check_columns].
  destruct (validate_identifier table (Some col)) eqn:Hcol; [|done].
  intros H. constructor; [done | by apply IH].
Qed.

Lemma validated_is_listed table col :
  validate_identifier table (Some col) = true →
  ∃ columns, VALID_IDENTIFIERS !! table = Some columns
             ∧ (col = EmptyString ∨ col ∈ columns).
Proof.
  unfold validate_identifier.
  destruct (VALID_IDENTIFIERS !! table) as [columns|]; [|done].
  intros H. exists columns. split; [done|].
  destruct col as [|c col]; [by left|]. right.
  cbn [truthy_str column_in andb] in H.
  by destruct (bool_decide_reflect (String c col ∈ columns)).
Qed.

Lemma build_select_query_inv table filters q :
  build_select_query table filters = inr q →
  validate_identifier table None = true
  ∧ ((filters = [] ∧ q = Composed [SQL "SELECT * FROM "; Identifier table])
     ∨ (filters ≠ []
        ∧ ∃ conds, mapM (condition table) filters = inr conds
                   ∧ q = Composed [Composed [SQL "SELECT * FROM ";
                                             Identifier table];
                                   SQL " WHERE "; join " AND " conds])).
Proof.
  unfold build_select_query.
  destruct (validate_identifier table None); [|done]. cbn [negb].
  change (format "SELECT * FROM {}" [Identifier table])
    with (@inr PyExc _ (Composed [SQL "SELECT * FROM "; Identifier table])).
  cbn [mbind Py_bind bind].
  destruct filters as [|f filters].
  - intros [= <-]. split; [done|]. by left.
  - destruct (mapM (condition table) (f :: filters)) as [e|conds]; [done|].
    cbn [mbind Py_bind bind]. intros Hq.
    lazy [format parse fill mbind Py_bind bind mret Py_ret ret app
            String.append] in Hq.
    injection Hq as <-. split; [done|]. right. split; [done|]. by exists conds.
Qed.

Lemma build_update_query_inv table set_clauses where_clauses q :
  build_update_query table set_clauses where_clauses = inr q →
  validate_identifier table None = true
  ∧ ∃ set_parts conds,
      mapM (set_part table) set_clauses = inr set_parts
      ∧ mapM (condition table) where_clauses = inr conds
      ∧ q = Composed [SQL "UPDATE "; Identifier table; SQL " SET ";
                      join ", " set_parts; SQL " WHERE ";
                      join " AND " conds].
Proof.
  unfold build_update_query.
  destruct (validate_identifier table None); [|done]. cbn [negb].
  destruct (mapM (set_part table) set_clauses) as [e|set_parts]; [done|].
  cbn [mbind Py_bind bind].
  destruct (mapM (condition table) where_clauses) as [e|conds]; [done|].
  cbn [mbind Py_bind bind]. intros Hq.
  lazy [format parse fill mbind Py_bind bind mret Py_ret ret app
          String.append] in Hq.
  injection Hq as <-. split; [done|]. by exists set_parts, conds.
Qed.

Lemma build_insert_query_inv table columns values_list q :
  build_insert_query table columns values_list = inr q →
  validate_identifier table None = true
  ∧ Forall (λ col, validate_identifier table (Some col) = true) columns
  ∧ q = Composed [SQL "INSERT INTO "; Identifier table; SQL " (";
                  join ", " (Identifier <$> columns); SQL ") VALUES ";
                  join ", "
                    ((λ vs : list Value,
                        Composed [SQL "(";
                                  join ", " (replicate (List.length vs) Placeholder);
                                  SQL ")"]) <$> values_list);
                  SQL " RETURNING *"].
Proof.
  unfold build_insert_query.
  destruct (validate_identifier table None); [|done]. cbn [negb].
  destruct (check_columns table columns) as [e|u] eqn:Hcols; [done|].
  cbn [mbind Py_bind bind].
  assert (∀ vl : list (list Value),
            mapM (λ values : list Value,
                    format "({})"
                      [join ", " (replicate (List.length values) Placeholder)])
                 vl
            = inr ((λ vs : list Value,
                      Composed [SQL "(";
                                join ", " (replicate (List.length vs) Placeholder);
                                SQL ")"]) <$> vl)) as Hrows.
  { induction vl as [|vs vl IH]; [done|]. cbn [mapM]. rewrite IH. done. }
  rewrite Hrows. cbn [mbind Py_bind bind]. intros Hq.
  lazy [format parse fill mbind Py_bind bind mret Py_ret ret app
          String.append] in Hq.
  injection Hq as <-.
  split; [done|]. split; [by eapply check_columns_inr | done].
Qed.

(** X3: a builder that returns a statement has validated every name it
    puts into the text: the table is a key of the registry, and every
    column of the filters, of the assignments and of the column list is
    the empty string or a column listed for that table. *)
Theorem built_statements_use_registered_names table :
  let listed (col : string) :=
    ∃ columns, VALID_IDENTIFIERS !! table = Some columns
               ∧ (col = EmptyString ∨ col ∈ columns) in
  (∀ filters q,
     build_select_query table filters = inr q →
     is_Some (VALID_IDENTIFIERS !! table)
     ∧ Forall (λ f : Filter, listed f.1.1) filters)
  ∧ (∀ set_clauses where_clauses q,
       build_update_query table set_clauses where_clauses = inr q →
       is_Some (VALID_IDENTIFIERS !! table)
       ∧ Forall (λ a : string * Value, listed a.1) set_clauses
       ∧ Forall (λ f : Filter, listed f.1.1) where_clauses)
  ∧ (∀ columns values_list q,
       build_insert_query table columns values_list = inr q →
       is_Some (VALID_IDENTIFIERS !! table)
       ∧ Forall listed columns).
Proof.
  intros listed.
  assert (validate_identifier table None = true →
          is_Some (VALID_IDENTIFIERS !! table)) as Hreg.
  { unfold validate_identifier.
    destruct (VALID_IDENTIFIERS !! table); [eauto | done]. }
  assert (∀ filters conds,
            mapM (condition table) filters = inr conds →
            Forall (λ f : Filter, listed f.1.1) filters) as Hconds.
  { intros filters conds Hm. apply mapM_Py_inv in Hm.
    induction Hm as [|f c filters conds Hc _ IH]; constructor; [|done].
    by eapply validated_is_listed, condition_inr_valid. }
  split; [|split].
  - intros filters q [Ht Hq]%build_select_query_inv. split; [by apply Hreg|].
    destruct Hq as [[-> _]|(_ & conds & Hm & _)]; [constructor | by eapply Hconds].
  - intros set_clauses where_clauses q
      (Ht & set_parts & conds & Hs & Hm & _)%build_update_query_inv.
    split; [by apply Hreg|]. split; [|by eapply Hconds].
    apply mapM_Py_inv in Hs.
    induction Hs as [|a c ? ? Hc _ IH]; constructor; [|done].
    by eapply validated_is_listed, set_part_inr_valid.
  - intros columns values_list q (Ht & Hcols & _)%build_insert_query_inv.
    split; [by apply Hreg|].
    eapply Forall_impl; [exact Hcols|]. intros col. apply validated_is_listed.
Qed.

Lemma built_statements_use_registered_names_witness :
  is_Some (VALID_IDENTIFIERS !! "suppliers")
  ∧ Forall (λ f : Filter,
              ∃ columns, VALID_IDENTIFIERS !! "suppliers" = Some columns
                         ∧ (f.1.1 = EmptyString ∨ f.1.1 ∈ columns))
           [("email", "LIKE", VStr "%@acme.test")].
Proof.
  eapply (proj1 (built_statements_use_registered_names "suppliers")).
  reflexivity.
Defined.

End BuilderSound.

(** ** Placeholders and parameters agree in number *)

Section Arity.

Import sql.

Context {DB : Type}.
Variable cursor_execute : DB → string → list Value → Py DB.
Variable fetchall : DB → list Dict.
Variable rowcount : DB → Z.

Lemma length_list_ascii_of_string s :
  List.length (list_ascii_of_string s) = String.length s.
Proof. induction s as [|c s IH]; [done|]. cbn. by rewrite IH. Qed.

Lemma py_len_iter val n vs :
  py_len val = inr n → py_iter val = inr vs → List.length vs = n.
Proof.
  destruct val; try done; cbn; intros [= <-] [= <-]; [|done].
  by rewrite length_fmap, length_list_ascii_of_string.
Qed.

Lemma condition_arity table col op val c ps :
  condition table (col, op, val) = inr c →
  filter_params [(col, op, val)] = inr ps →
  placeholders c = List.length ps.
Proof.
  unfold condition. cbn [filter_params].
  destruct (validate_identifier table (Some col)); [|done]. cbn [negb].
  destruct (decide (Str.upper op = "IN")) as [Hop|Hop].
  - destruct (py_len val) as [e|n] eqn:Hn; [done|].
    destruct (py_iter val) as [e|vs] eqn:Hvs; [done|].
    cbn [mbind Py_bind bind mret Py_ret ret]. intros Hc [= <-].
    lazy [format parse fill mbind Py_bind bind mret Py_ret ret app
            String.append] in Hc.
    injection Hc as <-.
    rewrite in_condition_placeholders, app_nil_r, length_fmap.
    symmetry. by eapply py_len_iter.
  - cbn [mbind Py_bind bind mret Py_ret ret]. intros Hc [= <-].
    lazy [format parse fill mbind Py_bind bind mret Py_ret ret app
            String.append] in Hc.
    by injection Hc as <-.
Qed.

Lemma filter_params_cons f filters ps :
  filter_params (f :: filters) = inr ps →
  ∃ here rest, filter_params [f] = inr here
               ∧ filter_params filters = inr rest ∧ ps = here ++ rest.
Proof.
  destruct f as [[col op] val]. cbn [filter_params].
  destruct (if decide (Str.upper op = "IN")
            then py_iter val ≫= λ vs, mret (sanitize_value <$> vs)
            else mret [sanitize_value val]) as [e|here]; [done|].
  cbn [mbind Py_bind bind mret Py_ret ret].
  destruct (filter_params filters) as [e|rest]; [done|].
  cbn [mbind Py_bind bind mret Py_ret ret]. intros [= <-].
  exists here, rest. by rewrite app_nil_r.
Qed.

Lemma conditions_arity table filters conds ps :
  mapM (condition table) filters = inr conds →
  filter_params filters = inr ps →
  sum_list (placeholders <$> conds) = List.length ps.
Proof.
  revert conds ps. induction filters as [|f filters IH]; intros conds ps Hm Hp.
  - injection Hm as <-. by injection Hp as <-.
  - apply mapM_Py_inv in Hm.
    apply Forall2_cons_inv_l in Hm as (c & conds' & Hc & Hm & ->).
    apply filter_params_cons in Hp as (here & rest & Hhere & Hrest & ->).
    destruct f as [[col op] val].
    rewrite fmap_cons, length_app. cbn [sum_list sum_list_with].
    rewrite (condition_arity _ _ _ _ _ _ Hc Hhere). f_equal.
    apply IH; [|done].
    clear -Hm. induction Hm as [|x y l k Hxy _ IHm]; [done|].
    cbn [mapM]. rewrite Hxy, IHm. done.
Qed.

Lemma count_char_app c (a b : string) :
  count_char c (a +:+ b) = count_char c a + count_char c b.
Proof.
  induction a as [|x a IH]; [done|].
  rewrite string_app_cons. cbn [count_char]. rewrite IH. lia.
Qed.

Lemma count_char_join c sep (l : list string) :
  count_char c sep = 0 →
  count_char c (Str.join sep l) = sum_list (count_char c <$> l).
Proof.
  intros Hsep. unfold Str.join.
  induction l as [|x [|y l] IH]; [done| |].
  - cbn. lia.
  - change (String.concat sep (x :: y :: l))
      with (x +:+ sep +:+ String.concat sep (y :: l)).
    rewrite !count_char_app, Hsep, IH. rewrite !fmap_cons. cbn. lia.
Qed.

Lemma count_percent_escape_ident (name : string) :
  count_char "%"%char (escape_ident name) = count_char "%"%char name.
Proof.
  induction name as [|c name IH]; [done|].
  cbn [escape_ident].
  destruct (decide (c = dquote)) as [->|Hc]; cbn [count_char]; rewrite IH.
  - by rewrite !decide_False by done.
  - done.
Qed.

(** Quoting adds no percent sign. *)
Lemma count_percent_quote_ident (name : string) :
  count_char "%"%char (quote_ident name) = count_char "%"%char name.
Proof.
  unfold quote_ident. cbn [count_char].
  rewrite count_char_app, count_percent_escape_ident. cbn [count_char].
  rewrite !decide_False by done. lia.
Qed.

(** No name of the registry holds a percent sign. *)
Lemma registry_no_percent table col :
  validate_identifier table (Some col) = true →
  count_char "%"%char table = 0 ∧ count_char "%"%char col = 0.
Proof.
  intros (columns & Hlook & Hcol)%validated_is_listed.
  unfold VALID_IDENTIFIERS in Hlook.
  apply elem_of_list_to_map_2 in Hlook.
  repeat (apply elem_of_cons in Hlook as [[= -> ->]|Hlook];
          [split; [done|];
           destruct Hcol as [->|Hcol]; [done|];
           repeat (apply elem_of_cons in Hcol as [->|Hcol]; [done|]);
           by apply elem_of_nil in Hcol|]).
  by apply elem_of_nil in Hlook.
Qed.

Lemma count_percent_markers n :
  count_char "%"%char (Str.join ", " (replicate n "%s")) = n.
Proof.
  rewrite count_char_join by done. rewrite fmap_replicate.
  change (count_char "%"%char "%s") with 1.
  induction n as [|n IH]; [done|]. cbn [replicate sum_list sum_list_with].
  by rewrite <- IH at 2.
Qed.

(** The text of a condition has the percent signs of its markers only,
    when its operator has none. *)
Lemma condition_text_markers table col op val c :
  condition table (col, op, val) = inr c →
  count_char "%"%char op = 0 →
  count_char "%"%char (as_string c) = placeholders c.
Proof.
  intros Hc Hop.
  pose proof (condition_inr_valid _ _ _ Hc) as Hcol. cbn [fst snd] in Hcol.
  destruct (registry_no_percent _ _ Hcol) as [_ Hno].
  unfold condition in Hc. rewrite Hcol in Hc. cbn [negb] in Hc.
  destruct (decide (Str.upper op = "IN")) as [Hin|Hin].
  - destruct (py_len val) as [e|n]; [done|].
    cbn [mbind Py_bind bind] in Hc.
    lazy [format parse fill mbind Py_bind bind mret Py_ret ret app
            String.append] in Hc.
    injection Hc as <-.
    rewrite in_condition_text, in_condition_placeholders. unfold in_text.
    rewrite !count_char_app, count_percent_quote_ident, Hno.
    rewrite count_percent_markers.
    change (count_char "%"%char " IN (") with 0.
    change (count_char "%"%char ")") with 0. lia.
  - lazy [format parse fill mbind Py_bind bind mret Py_ret ret app
            String.append] in Hc.
    injection Hc as <-.
    rewrite !as_string_Composed_cons, !placeholders_Composed_cons.
    cbn [as_string placeholders].
    rewrite !count_char_app, count_percent_quote_ident, Hno, Hop.
    change (count_char "%"%char " ") with 0.
    change (count_char "%"%char "%s") with 1.
    change (count_char "%"%char EmptyString) with 0.
    cbn [as_string placeholders]. lia.
Qed.

Lemma conditions_text_markers table filters conds :
  mapM (condition table) filters = inr conds →
  Forall (λ f : Filter, count_char "%"%char f.1.2 = 0) filters →
  sum_list (count_char "%"%char <$> (as_string <$> conds))
  = sum_list (placeholders <$> conds).
Proof.
  intros Hm%mapM_Py_inv Hops.
  induction Hm as [|[[col op] val] c filters conds Hc _ IH]; [done|].
  apply Forall_cons in Hops as [Hop Hops]. cbn [fst snd] in Hop.
  rewrite !fmap_cons. cbn [sum_list sum_list_with].
  rewrite (condition_text_markers _ _ _ _ _ Hc Hop).
  by rewrite <- (IH Hops).
Qed.

(** X4: whatever the table and the filters, [filter_multiple_values]
    either hands nothing to the driver, or hands it the one statement
    built by [build_select_query], with exactly as many parameters as the
    statement has placeholder objects. When no operator of the filters
    holds a percent sign, the text handed over has exactly as many
    percent signs, those of its markers, as there are parameters. *)
Theorem filter_multiple_values_arity (w : World DB) table filters :
  executed (filter_multiple_values cursor_execute fetchall table filters w)
  = executed w
  ∨ ∃ q ps,
      build_select_query table filters = inr q
      ∧ executed (filter_multiple_values cursor_execute fetchall
                    table filters w)
        = executed w ++ [(as_string q, ps)]
      ∧ placeholders q = List.length ps
      ∧ (Forall (λ f : Filter, count_char "%"%char f.1.2 = 0) filters →
         count_char "%"%char (as_string q) = List.length ps).
Proof.
  destruct (first_invalid table (filters.*1.*1)) as [col|] eqn:Hv.
  { left. unfold filter_multiple_values. by rewrite Hv. }
  destruct (build_select_query table filters) as [e|q] eqn:Hq.
  { left. unfold filter_multiple_values. by rewrite Hv, Hq. }
  destruct (filter_params filters) as [e|ps] eqn:Hp.
  { left. unfold filter_multiple_values. rewrite Hv, Hq.
    cbn [mbind Py_bind bind]. by rewrite Hp. }
  right. exists q, ps. split; [done|].
  split; [by apply filter_multiple_values_executed|].
  apply build_select_query_inv in Hq as [Htable [[-> ->]|(Hne & conds & Hm & ->)]].
  - injection Hp as <-. split; [done|]. intros _.
    rewrite !as_string_Composed_cons.
    change (as_string (Composed [])) with EmptyString.
    rewrite string_app_nil_r, count_char_app. cbn [as_string].
    rewrite count_percent_quote_ident.
    unfold validate_identifier in Htable.
    destruct (VALID_IDENTIFIERS !! table) as [columns|] eqn:Hlook; [|done].
    assert (validate_identifier table (Some EmptyString) = true) as Hempty.
    { unfold validate_identifier. by rewrite Hlook. }
    by destruct (registry_no_percent _ _ Hempty) as [-> _].
  - assert (placeholders
              (Composed [Composed [SQL "SELECT * FROM "; Identifier table];
                         SQL " WHERE "; join " AND " conds])
            = List.length ps) as Hplaces.
    { rewrite !placeholders_Composed_cons, placeholders_join.
      rewrite (conditions_arity _ _ _ _ Hm Hp). cbn. lia. }
    split; [done|]. intros Hops.
    rewrite select_text, !count_char_app, count_percent_quote_ident.
    rewrite count_char_join by done.
    rewrite (conditions_text_markers _ _ _ Hm Hops).
    rewrite (conditions_arity _ _ _ _ Hm Hp).
    destruct filters as [|[[col op] val] filters]; [done|].
    apply mapM_Py_inv, Forall2_cons_inv_l in Hm as (c & conds' & Hc & _ & _).
    apply condition_inr_valid in Hc. cbn [fst snd] in Hc.
    destruct (registry_no_percent _ _ Hc) as [-> _].
    change (count_char "%"%char "SELECT * FROM ") with 0.
    change (count_char "%"%char " WHERE ") with 0. lia.
Qed.

End Arity.

(** X4, at the two conditions of the round trip. *)
Lemma filter_multiple_values_arity_witness :
  ∃ text ps,
    executed (filter_multiple_values accept_all no_rows "products"
                [("price", ">", VInt 10);
                 ("category_id", "IN", VList [VInt 1; VInt 2; VInt 3])] fresh)
    = [(text, ps)]
    ∧ count_char "%"%char text = 4 ∧ List.length ps = 4.
Proof.
  destruct (filter_multiple_values_arity accept_all no_rows fresh "products"
              [("price", ">", VInt 10);
               ("category_id", "IN", VList [VInt 1; VInt 2; VInt 3])])
    as [Hnone|(q & ps & Hq & Hex & _ & Htext)].
  - discriminate Hnone.
  - exists (sql.as_string q), ps. split; [exact Hex|].
    injection Hex as _ <-.
    split; [|reflexivity]. apply Htext. repeat constructor.
Defined.

(** ** The write operations *)

Section Writes.

Import sql.

Context {DB : Type}.
Variable cursor_execute : DB → string → list Value → Py DB.
Variable fetchall : DB → list Dict.
Variable rowcount : DB → Z.

Lemma identifiers_no_placeholder columns :
  sum_list (placeholders <$> (Identifier <$> columns)) = 0.
Proof. induction columns as [|c columns IH]; [done|]. exact IH. Qed.

Lemma rows_placeholders (values_list : list (list Value)) :
  sum_list (placeholders <$> (row_of <$> values_list))
  = List.length (List.concat values_list).
Proof.
  induction values_list as [|vs vl IH]; [done|].
  assert (placeholders (row_of vs) = List.length vs) as Hrow.
  { unfold row_of.
    rewrite !placeholders_Composed_cons, placeholders_replicate. cbn. lia. }
  rewrite !fmap_cons. cbn [sum_list sum_list_with List.concat].
  by rewrite length_app, <- IH, <- Hrow.
Qed.

Lemma insert_query_placeholders table columns (values_list : list (list Value)) :
  placeholders
    (Composed [SQL "INSERT INTO "; Identifier table; SQL " (";
               join ", " (Identifier <$> columns); SQL ") VALUES ";
               join ", " (row_of <$> values_list); SQL " RETURNING *"])
  = List.length (List.concat values_list).
Proof.
  rewrite !placeholders_Composed_cons, !placeholders_join.
  rewrite identifiers_no_placeholder, rows_placeholders. cbn. lia.
Qed.

Lemma set_parts_placeholders table (set_clauses : list (string * Value)) set_parts :
  mapM (set_part table) set_clauses = inr set_parts →
  sum_list (placeholders <$> set_parts) = List.length set_clauses.
Proof.
  intros Hm. apply mapM_Py_inv in Hm.
  induction Hm as [|[col val] c l k Hc _ IH]; [done|].
  assert (placeholders c = 1) as Hone.
  { unfold set_part in Hc.
    destruct (validate_identifier table (Some col)); [|done].
    cbn [negb] in Hc.
    lazy [format parse fill mbind Py_bind bind mret Py_ret ret app
            String.append] in Hc.
    by injection Hc as <-. }
  rewrite fmap_cons. cbn [sum_list sum_list_with List.length].
  by rewrite <- IH, Hone.
Qed.

Lemma length_concat_sanitized (values_list : list (list Value)) :
  List.length
    (List.concat ((λ vs : list Value, sanitize_value <$> vs) <$> values_list))
  = List.length (List.concat values_list).
Proof.
  induction values_list as [|vs vl IH]; [done|].
  rewrite fmap_cons. cbn [List.concat].
  by rewrite !length_app, length_fmap, IH.
Qed.

(** X5: each of [insert_single_record], [insert_multiple_records] and
    [update_single_record] either hands nothing to the driver or hands it
    the one statement it built, with exactly as many parameters as the
    statement has placeholders. *)
Theorem write_operations_arity (w : World DB) table :
  (∀ data,
     let w' := (insert_single_record cursor_execute fetchall table data w).1 in
     executed w' = executed w
     ∨ ∃ q ps,
         build_insert_query table (keys data) [values data] = inr q
         ∧ executed w' = executed w ++ [(as_string q, ps)]
         ∧ placeholders q = List.length ps)
  ∧ (∀ records,
       let w' := (insert_multiple_records cursor_execute fetchall rowcount
                    table records w).1 in
       executed w' = executed w
       ∨ ∃ first q ps,
           head records = Some first
           ∧ build_insert_query table (keys first) (values <$> records) = inr q
           ∧ executed w' = executed w ++ [(as_string q, ps)]
           ∧ placeholders q = List.length ps)
  ∧ (∀ record_id updates,
       let w' := update_single_record cursor_execute fetchall rowcount
                   table record_id updates w in
       executed w' = executed w
       ∨ ∃ q ps,
           build_update_query table updates
             [(id_column_of table, "=", record_id)] = inr q
           ∧ executed w' = executed w ++ [(as_string q, ps)]
           ∧ placeholders q = List.length ps).
Proof.
  split; [|split].
  - intros data w'. subst w'. unfold insert_single_record.
    destruct (first_invalid table (keys data)); [by left|].
    destruct (build_insert_query _ _ _) as [e|q] eqn:Hq; [by left|].
    right. exists q, (sanitize_value <$> values data). split; [done|].
    pose proof (execute_query_executed cursor_execute fetchall (as_string q)
                  (sanitize_value <$> values data) w) as Hex.
    destruct (execute_query _ _ _ _ w) as [w1 result]. cbn [fst] in Hex.
    split; [by destruct result as [[|row rows]|]|].
    apply build_insert_query_inv in Hq as (_ & _ & ->).
    change (placeholders _ = _)
      with (placeholders
              (Composed [SQL "INSERT INTO "; Identifier table; SQL " (";
                         join ", " (Identifier <$> keys data); SQL ") VALUES ";
                         join ", " (row_of <$> [values data]);
                         SQL " RETURNING *"])
            = List.length (sanitize_value <$> values data)).
    rewrite insert_query_placeholders, length_fmap. cbn [List.concat].
    by rewrite app_nil_r.
  - intros records w'. subst w'. unfold insert_multiple_records.
    destruct records as [|first rest]; [by left|].
    destruct (existsb _ _); [by left|].
    destruct (first_invalid table (keys first)); [by left|].
    destruct (build_insert_query _ _ _) as [e|q] eqn:Hq; [by left|].
    right. eexists first, q, _. split; [done|]. split; [done|].
    pose proof (execute_query_executed cursor_execute fetchall (as_string q)
                  (List.concat ((λ vs : list Value, sanitize_value <$> vs)
                                  <$> (values <$> first :: rest))) w) as Hex.
    destruct (execute_query _ _ _ _ w) as [w1 result]. cbn [fst] in Hex.
    split; [exact Hex|].
    apply build_insert_query_inv in Hq as (_ & _ & ->).
    rewrite length_concat_sanitized. apply insert_query_placeholders.
  - intros record_id updates w'. subst w'. unfold update_single_record.
    destruct (_ || _); [by left|].
    destruct (first_invalid table (keys updates)); [by left|].
    destruct (build_update_query _ _ _) as [e|q] eqn:Hq; [by left|].
    right. exists q, ((sanitize_value <$> values updates)
                      ++ [sanitize_value record_id]).
    split; [done|].
    pose proof (execute_query_executed cursor_execute fetchall (as_string q)
                  ((sanitize_value <$> values updates)
                   ++ [sanitize_value record_id]) w) as Hex.
    destruct (execute_query _ _ _ _ w) as [w1 result]. cbn [fst] in Hex.
    split; [by destruct (0 <? rowcount (db w1))%Z|].
    apply build_update_query_inv in Hq as (_ & set_parts & conds & Hs & Hm & ->).
    rewrite !placeholders_Composed_cons, !placeholders_join.
    rewrite (set_parts_placeholders _ _ _ Hs).
    rewrite (conditions_arity table [(id_column_of table, "=", record_id)]
               conds [sanitize_value record_id] Hm eq_refl).
    rewrite length_app, length_fmap. unfold values. rewrite length_fmap.
    cbn. lia.
Qed.

End Writes.

(** ** Rows of an INSERT are never fetched *)

Section InsertResults.

Import sql.

Context {DB : Type}.
Variable cursor_execute : DB → string → list Value → Py DB.
Variable fetchall : DB → list Dict.
Variable rowcount : DB → Z.

(** X6: [insert_single_record] and [insert_multiple_records] never return
    a row, whatever the driver does: [execute_query] fetches rows only
    for a text that starts with SELECT, SHOW or DESC, and the text of
    [build_insert_query] starts with INSERT. *)
Theorem inserts_return_no_row (w : World DB) table :
  (∀ data,
     (insert_single_record cursor_execute fetchall table data w).2 = None)
  ∧ (∀ records,
       (insert_multiple_records cursor_execute fetchall rowcount
          table records w).2 = None).
Proof.
  split.
  - intros data. apply insert_single_record_returns_nothing.
  - intros records. unfold insert_multiple_records.
    destruct records as [|first rest]; [done|].
    destruct (existsb _ _); [done|].
    destruct (first_invalid table (keys first)); [done|].
    destruct (build_insert_query _ _ _) as [e|q] eqn:Hq; [done|].
    destruct (build_insert_query_prefix _ _ _ _ Hq) as [text ->].
    pose proof (execute_query_insert cursor_execute fetchall text
                  (List.concat ((λ vs : list Value, sanitize_value <$> vs)
                                  <$> (values <$> first :: rest))) w) as Hnone.
    destruct (execute_query _ _ _ _ w) as [w1 result].
    exact Hnone.
Qed.

(** One call of [insert_single_record]: at most one statement, no row. *)
Lemma insert_single_record_step table data (w : World DB) :
  ∃ w1 calls,
    insert_single_record cursor_execute fetchall table data w = (w1, None)
    ∧ executed w1 = executed w ++ calls
    ∧ (List.length calls ≤ 1)%nat.
Proof.
  pose proof (insert_single_record_returns_nothing cursor_execute fetchall
                table data w) as Hnone.
  assert (∃ calls,
            executed (insert_single_record cursor_execute fetchall
                        table data w).1 = executed w ++ calls
            ∧ (List.length calls ≤ 1)%nat) as (calls & Hex & Hlen).
  { unfold insert_single_record.
    destruct (first_invalid table (keys data)).
    { exists []. split; [by rewrite app_nil_r | cbn; lia]. }
    destruct (build_insert_query _ _ _) as [e|q].
    { exists []. split; [by rewrite app_nil_r | cbn; lia]. }
    pose proof (execute_query_executed cursor_execute fetchall (as_string q)
                  (sanitize_value <$> values data) w) as Hex.
    destruct (execute_query _ _ _ _ w) as [w1 result]. cbn [fst] in Hex.
    eexists [_]. split; [|cbn; lia]. by destruct result as [[|row rows]|]. }
  destruct (insert_single_record _ _ table data w) as [w1 result].
  cbn [fst snd] in *. subst result. by exists w1, calls.
Qed.

Lemma related_loop_no_ids tables_data rest :
  ∀ i (w : World DB),
    (∃ e, (related_loop cursor_execute fetchall tables_data i rest [] w).2
          = inl e)
    ∨ (related_loop cursor_execute fetchall tables_data i rest [] w).2
      = inr [].
Proof.
  induction rest as [|[[table data] idc] rest IH]; intros i w; [by right|].
  cbn [related_loop].
  destruct (if (0 <? i)%nat && truthy_str (Some idc)
            then link_previous tables_data i (keys data) [] data
            else mret data) as [e|data']; [left; by exists e|].
  destruct (insert_single_record_step table data' w)
    as (w1 & calls & -> & _ & _).
  cbn [capture_id mret Py_ret ret]. apply IH.
Qed.

(** X7: [insert_related_records] never captures an identifier: it
    returns nothing, or the empty list. *)
Theorem insert_related_records_captures_nothing
    (tables_data : list Related) (w : World DB) :
  (insert_related_records cursor_execute fetchall tables_data w).2 = None
  ∨ (insert_related_records cursor_execute fetchall tables_data w).2
    = Some [].
Proof.
  unfold insert_related_records.
  destruct (related_loop_no_ids tables_data tables_data 0 w) as [[e He]|He];
    destruct (related_loop _ _ _ _ _ _ w) as [w' [e'|ids]];
    cbn [snd] in He; try done; [by left | right].
  by injection He as ->.
Qed.

End InsertResults.

(** ** A column named after the previous table *)

Section Linking.

Import sql.

Context {DB : Type}.
Variable cursor_execute : DB → string → list Value → Py DB.
Variable fetchall : DB → list Dict.

Lemma rev_app_app (s p acc : string) :
  String.rev_app (s +:+ p) acc = String.rev_app p (String.rev_app s acc).
Proof.
  revert acc. induction s as [|a s IH]; intros acc; [done|].
  rewrite string_app_cons. cbn [String.rev_app]. apply IH.
Qed.

Lemma rev_app_acc (p acc : string) :
  String.rev_app p acc = String.rev_app p EmptyString +:+ acc.
Proof.
  revert acc. induction p as [|a p IH]; intros acc; [done|].
  cbn [String.rev_app]. rewrite (IH (String a acc)), (IH (String a EmptyString)).
  by rewrite string_app_assoc.
Qed.

(** [(s + p).endswith(p)] *)
Lemma endswith_app (p s : string) : Str.endswith p (s +:+ p) = true.
Proof.
  unfold Str.endswith, String.rev.
  rewrite rev_app_app, (rev_app_acc p (String.rev_app s EmptyString)).
  apply startswith_app.
Qed.

(** With no identifier captured, linking a column named after the
    previous table raises. *)
Lemma link_previous_raises (tables_data : list Related) i (prev : Related)
    cols (data : Dict) :
  tables_data !! (i - 1) = Some prev →
  Str.drop_last prev.1.1 +:+ "_id" ∈ cols →
  link_previous tables_data i cols [] data
  = inl (IndexError "list index out of range").
Proof.
  intros Hprev. revert data. induction cols as [|col cols IH]; intros data Hin.
  { by apply elem_of_nil in Hin. }
  cbn [link_previous]. unfold py_index. rewrite Hprev.
  cbn [mbind Py_bind bind mret Py_ret ret].
  destruct (decide (col = Str.drop_last prev.1.1 +:+ "_id")) as [->|Hne].
  - by rewrite endswith_app.
  - apply elem_of_cons in Hin as [Heq|Hin]; [done|].
    destruct (Str.endswith "_id" col); cbn [mbind Py_bind bind]; by apply IH.
Qed.

Lemma link_previous_error (tables_data : list Related) i cols ids
    (data : Dict) e :
  link_previous tables_data i cols ids data = inl e →
  e = IndexError "list index out of range".
Proof.
  revert data. induction cols as [|col cols IH]; intros data; [done|].
  cbn [link_previous].
  destruct (Str.endswith "_id" col); [|apply IH].
  unfold py_index, py_last.
  destruct (tables_data !! (i - 1)) as [prev|]; [|by intros [= <-]].
  cbn [mbind Py_bind bind mret Py_ret ret].
  destruct (decide (col = Str.drop_last prev.1.1 +:+ "_id")); [|apply IH].
  destruct (last ids); [apply IH | by intros [= <-]].
Qed.

Lemma related_loop_stops_at_link (tables_data : list Related) rest :
  ∀ j k (w : World DB) (entry prev : Related),
    (∀ n, rest !! n = tables_data !! (j + n)) →
    rest !! k = Some entry →
    (0 < j + k)%nat →
    tables_data !! (j + k - 1) = Some prev →
    entry.2 ≠ EmptyString →
    Str.drop_last prev.1.1 +:+ "_id" ∈ keys entry.1.2 →
    ∃ w' calls,
      related_loop cursor_execute fetchall tables_data j rest [] w
      = (w', inl (IndexError "list index out of range"))
      ∧ executed w' = executed w ++ calls
      ∧ (List.length calls ≤ k)%nat.
Proof.
  induction rest as [|[[table data] idc] rest IH];
    intros j k w entry prev Hrest Hk Hpos Hprev Hidc Hkey; [done|].
  cbn [related_loop]. destruct k as [|k].
  - injection Hk as <-. cbn [fst snd] in *.
    replace (j + 0)%nat with j in * by lia.
    assert ((0 <? j)%nat = true) as -> by by apply Nat.ltb_lt.
    rewrite truthy_nonempty by done. cbn [andb].
    rewrite (link_previous_raises _ _ _ _ _ Hprev Hkey).
    exists w, []. by rewrite app_nil_r.
  - destruct (if (0 <? j)%nat && truthy_str (Some idc)
              then link_previous tables_data j (keys data) [] data
              else mret data) as [e|data'] eqn:Hlink.
    { exists w, []. split; [|split; [by rewrite app_nil_r | cbn; lia]].
      destruct ((0 <? j)%nat && truthy_str (Some idc)); [|done].
      by rewrite (link_previous_error _ _ _ _ _ _ Hlink). }
    destruct (insert_single_record_step cursor_execute fetchall
                table data' w) as (w1 & calls1 & -> & Hex1 & Hlen1).
    cbn [capture_id mret Py_ret ret].
    destruct (IH (S j) k w1 entry prev) as (w' & calls & Hloop & Hex & Hlen);
      try done.
    + intros n. replace (S j + n)%nat with (j + S n)%nat by lia.
      by rewrite <- Hrest.
    + lia.
    + by replace (S j + k - 1)%nat with (j + S k - 1)%nat by lia.
    + exists w', (calls1 ++ calls). split; [done|]. split.
      * by rewrite Hex, Hex1, app_assoc.
      * rewrite length_app. lia.
Qed.

(** X8: when an entry after the first has an identifier column and a
    key made of the previous table's name without its last character
    followed by _id, [insert_related_records] fails with an index error
    and returns nothing. At most as many statements as there are entries
    before it were handed to the driver, so that entry and the later
    ones are never inserted; what was inserted before stays. *)
Theorem insert_related_records_link_fails
    (tables_data : list Related) (w : World DB) i (entry prev : Related) :
  (0 < i)%nat →
  tables_data !! i = Some entry →
  tables_data !! (i - 1) = Some prev →
  entry.2 ≠ EmptyString →
  Str.drop_last prev.1.1 +:+ "_id" ∈ keys entry.1.2 →
  ∃ w' calls,
    insert_related_records cursor_execute fetchall tables_data w
    = (emit (ErrException "inserting related records"
               (IndexError "list index out of range")) w', None)
    ∧ executed w' = executed w ++ calls
    ∧ (List.length calls ≤ i)%nat.
Proof.
  intros Hpos Hentry Hprev Hidc Hkey.
  destruct (related_loop_stops_at_link tables_data tables_data 0 i w
              entry prev) as (w' & calls & Hloop & Hex & Hlen); try done.
  exists w', calls. unfold insert_related_records. by rewrite Hloop.
Qed.

End Linking.

(** X8, at the example data of the menu: the product is inserted, the
    inventory transaction is not, and nothing is returned. *)
Lemma insert_related_records_link_fails_witness :
  ∃ w' calls,
    insert_related_records accept_all no_rows
      (example_tables_data "app_user") fresh
    = (emit (ErrException "inserting related records"
               (IndexError "list index out of range")) w', None)
    ∧ executed w' = executed fresh ++ calls
    ∧ (List.length calls ≤ 1)%nat.
Proof.
  eapply (insert_related_records_link_fails accept_all no_rows
            (example_tables_data "app_user") fresh 1).
  - lia.
  - reflexivity.
  - reflexivity.
  - discriminate.
  - cbn. set_solver.
Defined.

(** ** Updating one record *)

Section UpdateSingle.

Import sql.

Context {DB : Type}.
Variable cursor_execute : DB → string → list Value → Py DB.
Variable fetchall : DB → list Dict.
Variable rowcount : DB → Z.

Lemma validated_column_table table col :
  validate_identifier table (Some col) = true →
  validate_identifier table None = true.
Proof.
  unfold validate_identifier.
  by destruct (VALID_IDENTIFIERS !! table).
Qed.

(** X9: when the identifier column derived from the table name is not a
    registered column of the table, [update_single_record] never reaches
    the driver, whatever the updates: it prints one message and the
    record stays as it is. This is the case of [categories] and of
    [inventory_transactions]. *)
Theorem update_single_record_unregistered_id
    (w : World DB) table record_id updates :
  validate_identifier table (Some (id_column_of table)) = false →
  ∃ m, update_single_record cursor_execute fetchall rowcount
         table record_id updates w = emit m w.
Proof.
  intros Hid. unfold update_single_record.
  destruct (_ || _); [by eexists|].
  destruct (first_invalid table (keys updates)); [by eexists|].
  destruct (build_update_query _ _ _) as [e|q] eqn:Hq; [by eexists|].
  apply build_update_query_inv in Hq as (_ & set_parts & conds & _ & Hm & _).
  apply mapM_Py_inv, Forall2_cons_inv_l in Hm as (c & conds' & Hc & _ & _).
  apply condition_inr_valid in Hc. cbn [fst snd] in Hc. congruence.
Qed.

(** X10: for a table whose derived identifier column is registered, an
    update whose keys are all valid columns and name neither [id] nor
    that identifier column hands exactly one UPDATE to the driver: the
    assignments in the order of the updates, the condition on the
    identifier column, and as parameters the sanitized new values
    followed by the sanitized record identifier. *)
Theorem update_single_record_statement
    (w : World DB) table record_id (updates : Dict) :
  validate_identifier table (Some (id_column_of table)) = true →
  dict_has "id" updates = false →
  dict_has (Str.drop_last table +:+ "_id") updates = false →
  Forall (λ col, validate_identifier table (Some col) = true) (keys updates) →
  executed (update_single_record cursor_execute fetchall rowcount
              table record_id updates w)
  = executed w
    ++ [("UPDATE " +:+ quote_ident table +:+ " SET "
         +:+ Str.join ", " ((λ a, quote_ident a.1 +:+ " = %s") <$> updates)
         +:+ " WHERE " +:+ quote_ident (id_column_of table) +:+ " = %s",
         (sanitize_value <$> values updates) ++ [sanitize_value record_id])].
Proof.
  intros Hid Hno_id Hno_pk Hcols.
  pose proof (validated_column_table _ _ Hid) as Htable.
  assert (mapM (set_part table) updates
          = inr ((λ a, Composed [Identifier a.1; SQL " = "; Placeholder])
                   <$> updates)) as Hs.
  { apply mapM_set_part_valid. unfold keys in Hcols.
    by rewrite Forall_fmap in Hcols. }
  assert (mapM (condition table) [(id_column_of table, "=", record_id)]
          = inr [Composed [Identifier (id_column_of table); SQL " ";
                           SQL "="; SQL " "; Placeholder]]) as Hm.
  { cbn [mapM]. by rewrite (condition_other table _ "=" record_id Hid). }
  pose proof (build_update_query_valid _ _ _ _ _ Htable Hs Hm) as Hq.
  unfold update_single_record.
  rewrite Hno_id, Hno_pk, (first_invalid_none _ _ Hcols), Hq. cbn [orb].
  pose proof (execute_query_executed cursor_execute fetchall
                (as_string (Composed [SQL "UPDATE "; Identifier table;
                   SQL " SET ";
                   join ", " ((λ a, Composed [Identifier a.1; SQL " = ";
                                              Placeholder]) <$> updates);
                   SQL " WHERE ";
                   join " AND " [Composed [Identifier (id_column_of table);
                                   SQL " "; SQL "="; SQL " "; Placeholder]]]))
                ((sanitize_value <$> values updates)
                 ++ [sanitize_value record_id]) w) as Hex.
  destruct (execute_query _ _ _ _ w) as [w1 result]. cbn [fst] in Hex.
  assert (executed (if (0 <? rowcount (db w1))%Z
                    then emit (UpdatedRecord (id_column_of table) record_id
                                 (rowcount (db w1))) w1
                    else emit (NoRecordWith (id_column_of table) record_id) w1)
          = executed w1) as -> by by destruct (0 <? rowcount (db w1))%Z.
  rewrite Hex, update_text. do 2 f_equal. f_equal.
  rewrite <- list_fmap_compose. reflexivity.
Qed.

End UpdateSingle.

(** X9, at [categories], whose derived column is categorie_id, and at
    [inventory_transactions], whose key is transaction_id. *)
Lemma update_single_record_unregistered_id_witness :
  (∃ m, update_single_record accept_all no_rows no_count "categories"
          (VInt 1) [("description", VStr "Hand tools")] fresh = emit m fresh)
  ∧ (∃ m, update_single_record accept_all no_rows no_count
            "inventory_transactions" (VInt 1) [("notes", VStr "checked")] fresh
          = emit m fresh).
Proof.
  split.
  - apply (update_single_record_unregistered_id accept_all no_rows no_count
             fresh "categories"). reflexivity.
  - apply (update_single_record_unregistered_id accept_all no_rows no_count
             fresh "inventory_transactions"). reflexivity.
Defined.

(** X10, at an update of the price and the stock of a product. *)
Lemma update_single_record_statement_witness :
  executed (update_single_record accept_all no_rows no_count "products"
              (VInt 7) [("price", VInt 5); ("sku", VStr "A;1")] fresh)
  = [("UPDATE " +:+ sql.quote_ident "products" +:+ " SET "
      +:+ sql.quote_ident "price" +:+ " = %s, "
      +:+ sql.quote_ident "sku" +:+ " = %s WHERE "
      +:+ sql.quote_ident "product_id" +:+ " = %s",
      [VInt 5; VStr "A1"; VInt 7])].
Proof.
  apply (update_single_record_statement accept_all no_rows no_count
           fresh "products" (VInt 7) [("price", VInt 5); ("sku", VStr "A;1")]).
  - reflexivity.
  - reflexivity.
  - reflexivity.
  - repeat constructor.
Defined.

(** ** Reading *)

Section Reading.

Import sql.

Context {DB : Type}.
Variable cursor_execute : DB → string → list Value → Py DB.
Variable fetchall : DB → list Dict.

Lemma rstrip_cons c s :
  Str.is_space c = false → Str.rstrip (String c s) = String c (Str.rstrip s).
Proof. intros Hc. cbn [Str.rstrip]. rewrite Hc. by destruct (Str.rstrip s). Qed.

Lemma strip_select rest :
  Str.strip ("SELECT" +:+ rest) = "SELECT" +:+ Str.rstrip rest.
Proof.
  unfold Str.strip.
  change (Str.lstrip ("SELECT" +:+ rest)) with ("SELECT" +:+ rest).
  change ("SELECT" +:+ rest)
    with (String "S" (String "E" (String "L" (String "E" (String "C"
            (String "T" rest)))))).
  by rewrite !rstrip_cons.
Qed.

(** For a text that starts with SELECT, [execute_query] returns the rows
    fetched when the driver accepts, and nothing when it raises. *)
Lemma execute_query_select rest params (w : World DB) :
  let query := "SELECT" +:+ rest in
  execute_query cursor_execute fetchall query params w
  = match cursor_execute (db w) query params with
    | inl e =>
        (emit (LogQueryFailed e)
           (mkWorld (db w) (executed w ++ [(query, params)]) (out w)),
         None)
    | inr db' =>
        (mkWorld db' (executed w ++ [(query, params)]) (out w),
         Some (fetchall db'))
    end.
Proof.
  intros query. unfold execute_query. cbn [db executed out].
  destruct (cursor_execute (db w) query params) as [e|db']; [done|].
  unfold query. rewrite strip_select.
  change (Str.upper ("SELECT" +:+ Str.rstrip rest))
    with ("SELECT" +:+ Str.upper (Str.rstrip rest)).
  by rewrite startswith_app.
Qed.

(** X11: [display_table] prints an error and reaches no driver for a
    table that is not registered. For a registered table it hands over
    exactly the SELECT of all rows of the quoted table, without
    parameters; it shows the rows fetched, and prints that there are no
    records both when no row came back and when the driver raised. *)
Theorem display_table_behaviour (w : World DB) table :
  (validate_identifier table None = false →
   display_table cursor_execute fetchall table w
   = (w, Printed (ErrException "displaying table"
                    (ValueError ("Invalid table name: " +:+ table)))))
  ∧ (validate_identifier table None = true →
     let text := "SELECT * FROM " +:+ quote_ident table in
     executed (display_table cursor_execute fetchall table w).1
     = executed w ++ [(text, [])]
     ∧ (display_table cursor_execute fetchall table w).2
       = match cursor_execute (db w) text [] with
         | inr db' =>
             match fetchall db' with
             | [] => TableEmpty table
             | rows => TableShown table rows
             end
         | inl e => TableEmpty table
         end).
Proof.
  split; intros Htable; unfold display_table, build_select_query;
    rewrite Htable; [done|].
  cbn [negb].
  change (format "SELECT * FROM {}" [Identifier table])
    with (@inr PyExc _ (Composed [SQL "SELECT * FROM "; Identifier table])).
  cbn [mbind Py_bind bind mret Py_ret ret].
  change (as_string (Composed [SQL "SELECT * FROM "; Identifier table]))
    with ("SELECT" +:+ " * FROM " +:+ quote_ident table +:+ EmptyString).
  rewrite string_app_nil_r, execute_query_select.
  change ("SELECT * FROM " +:+ quote_ident table)
    with ("SELECT" +:+ " * FROM " +:+ quote_ident table).
  destruct (cursor_execute _ _ _) as [e|db']; [done|].
  by destruct (fetchall db').
Qed.

(** X12: [filter_single_value] prints an error and reaches no driver
    when the column does not pass validation for the table. Otherwise it
    hands over exactly one SELECT with an equality on the quoted column,
    bound to the sanitized value; it shows the rows fetched under the
    value as typed, and prints that nothing was found both when no row
    came back and when the driver raised. *)
Theorem filter_single_value_behaviour (w : World DB) table column value :
  (validate_identifier table (Some column) = false →
   filter_single_value cursor_execute fetchall table column value w
   = (w, Printed (ErrInvalidColumn column table)))
  ∧ (validate_identifier table (Some column) = true →
     let text := "SELECT * FROM " +:+ quote_ident table +:+ " WHERE "
                 +:+ quote_ident column +:+ " = %s" in
     executed (filter_single_value cursor_execute fetchall
                 table column value w).1
     = executed w ++ [(text, [sanitize_value value])]
     ∧ (filter_single_value cursor_execute fetchall table column value w).2
       = match cursor_execute (db w) text [sanitize_value value] with
         | inr db' =>
             match fetchall db' with
             | [] => NothingWith column value
             | rows => FilteredBy column value rows
             end
         | inl e => NothingWith column value
         end).
Proof.
  split; intros Hcol; unfold filter_single_value; rewrite Hcol; [done|].
  cbn [negb].
  pose proof (validated_column_table _ _ Hcol) as Htable.
  assert (mapM (condition table) [(column, "=", value)]
          = inr [Composed [Identifier column; SQL " "; SQL "="; SQL " ";
                           Placeholder]]) as Hm.
  { cbn [mapM]. by rewrite (condition_other table column "=" value Hcol). }
  rewrite (build_select_query_valid table [(column, "=", value)] _
             Htable ltac:(done) Hm).
  rewrite select_text.
  assert ("SELECT * FROM " +:+ quote_ident table +:+ " WHERE "
          +:+ Str.join " AND "
                (as_string <$> [Composed [Identifier column; SQL " ";
                                          SQL "="; SQL " "; Placeholder]])
          = "SELECT" +:+ " * FROM " +:+ quote_ident table +:+ " WHERE "
            +:+ quote_ident column +:+ " = %s") as ->.
  { reflexivity. }
  rewrite execute_query_select.
  change ("SELECT * FROM " +:+ quote_ident table +:+ " WHERE "
          +:+ quote_ident column +:+ " = %s")
    with ("SELECT" +:+ " * FROM " +:+ quote_ident table +:+ " WHERE "
          +:+ quote_ident column +:+ " = %s").
  destruct (cursor_execute _ _ _) as [e|db']; [done|].
  by destruct (fetchall db').
Qed.

End Reading.

(** ** Schema introspection *)

Section Introspection.

Context {DB : Type}.
Variable cursor_execute : DB → string → list Value → Py DB.
Variable fetchall : DB → list Dict.

Lemma execute_query_columns params (w : World DB) :
  execute_query cursor_execute fetchall table_columns_query params w
  = match cursor_execute (db w) table_columns_query params with
    | inl e =>
        (emit (LogQueryFailed e)
           (mkWorld (db w) (executed w ++ [(table_columns_query, params)])
              (out w)),
         None)
    | inr db' =>
        (mkWorld db' (executed w ++ [(table_columns_query, params)]) (out w),
         Some (fetchall db'))
    end.
Proof.
  unfold execute_query. cbn [db executed out].
  by destruct (cursor_execute (db w) table_columns_query params).
Qed.

Lemma Forall2_elem_of_right {A B} (R : A → B → Prop) l k y :
  Forall2 R l k → y ∈ k → ∃ x, x ∈ l ∧ R x y.
Proof.
  induction 1 as [|x y' l k Hxy _ IH]; intros Hin.
  - by apply elem_of_nil in Hin.
  - apply elem_of_cons in Hin as [->|Hin].
    + exists x. split; [left | done].
    + destruct (IH Hin) as (x' & Hx' & HR). exists x'. split; [by right | done].
Qed.

Lemma column_of_rows_elem key message rows vs log v :
  column_of_rows key message rows = (vs, log) → v ∈ vs →
  ∃ all row, rows = Some all ∧ row ∈ all ∧ dict_get key row = inr v.
Proof.
  unfold column_of_rows. destruct rows as [[|r rs]|].
  - intros [= <- _] Hin. by apply elem_of_nil in Hin.
  - destruct (mapM (dict_get key) (r :: rs)) as [e|vs'] eqn:Hm.
    + intros [= <- _] Hin. by apply elem_of_nil in Hin.
    + intros [= <- _] Hin. apply mapM_Py_inv in Hm.
      destruct (Forall2_elem_of_right _ _ _ _ Hm Hin) as (row & Hrow & Hget).
      by exists (r :: rs), row.
  - intros [= <- _] Hin. by apply elem_of_nil in Hin.
Qed.

(** X13: [get_table_columns] hands the driver the same text for every
    table, with the table name as its only parameter. When the driver
    raises, it returns the empty list and [validate_column_name] answers
    false for every column; and [validate_column_name] answers true only
    if the driver returned a row whose [column_name] is that column. *)
Theorem validate_column_name_behaviour (w : World DB) table :
  executed (get_table_columns cursor_execute fetchall table w).1
  = executed w ++ [(table_columns_query, [VStr table])]
  ∧ (∀ e,
       cursor_execute (db w) table_columns_query [VStr table] = inl e →
       (get_table_columns cursor_execute fetchall table w).2 = ([], None)
       ∧ ∀ column,
           (validate_column_name cursor_execute fetchall table column w).2
           = false)
  ∧ (∀ column,
       (validate_column_name cursor_execute fetchall table column w).2 = true →
       ∃ db' row,
         cursor_execute (db w) table_columns_query [VStr table] = inr db'
         ∧ row ∈ fetchall db'
         ∧ dict_get "column_name" row = inr (VStr column)).
Proof.
  unfold validate_column_name, get_table_columns.
  rewrite execute_query_columns.
  destruct (cursor_execute (db w) table_columns_query [VStr table])
    as [e|db'] eqn:Hex.
  - split; [done|]. split; [done|]. intros column Htrue. done.
  - split; [done|]. split; [done|]. intros column.
    destruct (column_of_rows _ _ (Some (fetchall db'))) as [vs log] eqn:Hrows.
    cbn [snd]. intros Hexists.
    apply existsb_exists in Hexists as (v & Hin & Hv).
    apply list_elem_of_In in Hin.
    destruct v as [| | | |s|]; try done. apply bool_decide_eq_true in Hv as ->.
    destruct (column_of_rows_elem _ _ _ _ _ _ Hrows Hin)
      as (all & row & [= <-] & Hrow & Hget).
    by exists db', row.
Qed.

End Introspection.

(** X13, at a driver that refuses the query. *)
Lemma validate_column_name_behaviour_witness :
  (validate_column_name refuse_all no_rows "products" "price" fresh).2 = false.
Proof.
  apply (proj2 (proj1 (proj2 (validate_column_name_behaviour refuse_all
                                no_rows fresh "products"))
                  (ValueError "connection already closed") eq_refl)).
Defined.

(** ** Builders on empty input *)

(** X14: for a registered table the builders raise nothing on empty
    input: without filters the SELECT has no WHERE clause, an UPDATE
    without assignments and conditions has an empty SET and an empty
    WHERE clause, and an INSERT without columns and rows has an empty
    column list and no tuple after VALUES. *)
Theorem builders_on_empty_input table :
  validate_identifier table None = true →
  (∃ q, build_select_query table [] = inr q
        ∧ sql.as_string q = "SELECT * FROM " +:+ sql.quote_ident table)
  ∧ (∃ q, build_update_query table [] [] = inr q
          ∧ sql.as_string q
            = "UPDATE " +:+ sql.quote_ident table +:+ " SET  WHERE ")
  ∧ (∃ q, build_insert_query table [] [] = inr q
          ∧ sql.as_string q
            = "INSERT INTO " +:+ sql.quote_ident table
              +:+ " () VALUES  RETURNING *").
Proof.
  intros Htable.
  unfold build_select_query, build_update_query, build_insert_query.
  rewrite Htable. cbn [negb].
  split; [|split].
  - exists (sql.Composed [sql.SQL "SELECT * FROM "; sql.Identifier table]).
    split; [reflexivity|].
    rewrite !as_string_Composed_cons.
    change (sql.as_string (sql.Composed [])) with EmptyString.
    by rewrite string_app_nil_r.
  - exists (sql.Composed [sql.SQL "UPDATE "; sql.Identifier table;
                          sql.SQL " SET "; sql.join ", " [];
                          sql.SQL " WHERE "; sql.join " AND " []]).
    split; [reflexivity|]. rewrite update_text. reflexivity.
  - exists (sql.Composed [sql.SQL "INSERT INTO "; sql.Identifier table;
                          sql.SQL " ("; sql.join ", " [];
                          sql.SQL ") VALUES "; sql.join ", " [];
                          sql.SQL " RETURNING *"]).
    split; [reflexivity|]. rewrite !as_string_Composed_cons. reflexivity.
Qed.

Lemma builders_on_empty_input_witness :
  ∃ q, build_update_query "suppliers" [] [] = inr q
       ∧ sql.as_string q
         = "UPDATE " +:+ sql.quote_ident "suppliers" +:+ " SET  WHERE ".
Proof.
  apply (proj1 (proj2 (builders_on_empty_input "suppliers" eq_refl))).
Defined.

(** ** The statement of a multi-row insert *)

Section InsertMany.

Import sql.

Context {DB : Type}.
Variable cursor_execute : DB → string → list Value → Py DB.
Variable fetchall : DB → list Dict.
Variable rowcount : DB → Z.

Lemma check_columns_valid table columns :
  Forall (λ col, validate_identifier table (Some col) = true) columns →
  check_columns table columns = inr tt.
Proof.
  induction 1 as [|col columns Hcol _ IH]; [done|].
  cbn [check_columns]. by rewrite Hcol.
Qed.

Lemma build_insert_query_valid table columns (values_list : list (list Value)) :
  validate_identifier table None = true →
  Forall (λ col, validate_identifier table (Some col) = true) columns →
  build_insert_query table columns values_list
  = inr (Composed [SQL "INSERT INTO "; Identifier table; SQL " (";
                   join ", " (Identifier <$> columns); SQL ") VALUES ";
                   join ", " (row_of <$> values_list); SQL " RETURNING *"]).
Proof.
  intros Htable Hcols. unfold build_insert_query.
  rewrite Htable, (check_columns_valid _ _ Hcols).
  cbn [negb mbind Py_bind bind].
  assert (mapM (λ values : list Value,
                  format "({})"
                    [join ", " (replicate (List.length values) Placeholder)])
               values_list
          = inr (row_of <$> values_list)) as ->.
  { induction values_list as [|vs vl IH]; [done|]. cbn [mapM]. by rewrite IH. }
  reflexivity.
Qed.

Lemma insert_text table columns (values_list : list (list Value)) :
  as_string (Composed [SQL "INSERT INTO "; Identifier table; SQL " (";
                       join ", " (Identifier <$> columns); SQL ") VALUES ";
                       join ", " (row_of <$> values_list);
                       SQL " RETURNING *"])
  = "INSERT INTO " +:+ quote_ident table +:+ " ("
    +:+ Str.join ", " (quote_ident <$> columns) +:+ ") VALUES "
    +:+ Str.join ", "
          ((λ vs : list Value,
              "(" +:+ Str.join ", " (replicate (List.length vs) "%s") +:+ ")")
             <$> values_list)
    +:+ " RETURNING *".
Proof.
  rewrite !as_string_Composed_cons, !as_string_join.
  change (as_string (Composed [])) with EmptyString.
  rewrite <- !list_fmap_compose.
  assert (as_string ∘ row_of <$> values_list
          = (λ vs : list Value,
               "(" +:+ Str.join ", " (replicate (List.length vs) "%s") +:+ ")")
              <$> values_list) as ->.
  { apply list_fmap_ext. intros _ vs _. cbn [compose]. unfold row_of.
    rewrite !as_string_Composed_cons, join_replicate_placeholder.
    reflexivity. }
  reflexivity.
Qed.

Lemma fmap_constant {A B} (f : A → B) (c : B) l :
  Forall (λ x, f x = c) l → f <$> l = replicate (List.length l) c.
Proof.
  induction 1 as [|x l Hx _ IH]; [done|].
  rewrite fmap_cons. cbn [List.length replicate]. by rewrite Hx, IH.
Qed.

Lemma existsb_none {A} (f : A → bool) l :
  Forall (λ x, f x = false) l → existsb f l = false.
Proof.
  induction 1 as [|x l Hx _ IH]; [done|]. cbn [existsb]. by rewrite Hx, IH.
Qed.

Lemma same_keys_same_length (r first : Dict) :
  NoDup (keys r) → NoDup (keys first) →
  list_to_set (C := gset string) (keys r)
  = list_to_set (C := gset string) (keys first) →
  List.length (values r) = List.length (keys first).
Proof.
  intros Hr Hfirst Heq. unfold values. rewrite length_fmap.
  rewrite <- (length_fmap fst r). fold (keys r).
  rewrite <- (size_list_to_set (C := gset string) (keys r)) by done.
  rewrite <- (size_list_to_set (C := gset string) (keys first)) by done.
  by rewrite Heq.
Qed.

(** X15: for a registered table and records that all have the keys of
    the first one (each key once, all of them valid columns),
    [insert_multiple_records] hands exactly one INSERT to the driver: the
    column list is the keys of the first record in its order, every
    record gives one tuple with as many placeholders as there are
    columns, and the parameters are the sanitized values of each record
    in that record's own key order. *)
Theorem insert_multiple_records_statement
    (w : World DB) table (first : Dict) (rest : list Dict) :
  validate_identifier table None = true →
  Forall (λ col, validate_identifier table (Some col) = true) (keys first) →
  Forall (λ r : Dict,
            NoDup (keys r)
            ∧ list_to_set (C := gset string) (keys r)
              = list_to_set (C := gset string) (keys first))
         (first :: rest) →
  executed (insert_multiple_records cursor_execute fetchall rowcount
              table (first :: rest) w).1
  = executed w
    ++ [("INSERT INTO " +:+ quote_ident table +:+ " ("
         +:+ Str.join ", " (quote_ident <$> keys first) +:+ ") VALUES "
         +:+ Str.join ", "
               (replicate (S (List.length rest))
                  ("(" +:+ Str.join ", "
                             (replicate (List.length (keys first)) "%s")
                   +:+ ")"))
         +:+ " RETURNING *",
         List.concat ((λ r : Dict, sanitize_value <$> values r)
                        <$> first :: rest))].
Proof.
  intros Htable Hcols Hall.
  assert (NoDup (keys first)) as Hfirst.
  { by apply Forall_cons in Hall as [[? _] _]. }
  unfold insert_multiple_records.
  rewrite existsb_none; cycle 1.
  { eapply Forall_impl; [exact Hall|]. intros r [_ Heq].
    unfold keys_differ. by apply bool_decide_eq_false; intros ?. }
  rewrite (first_invalid_none _ _ Hcols).
  rewrite (build_insert_query_valid _ _ _ Htable Hcols).
  pose proof (execute_query_executed cursor_execute fetchall) as Hex.
  match goal with
  | |- context [execute_query _ _ ?text ?ps w] =>
      specialize (Hex text ps w);
      destruct (execute_query cursor_execute fetchall text ps w)
        as [w1 result]
  end.
  cbn [fst emit executed] in *. rewrite Hex, insert_text.
  rewrite <- !list_fmap_compose.
  rewrite (fmap_constant _
             ("(" +:+ Str.join ", " (replicate (List.length (keys first)) "%s")
              +:+ ")") (first :: rest)).
  - reflexivity.
  - eapply Forall_impl; [exact Hall|]. intros r [Hr Heq]. cbn [compose].
    by rewrite (same_keys_same_length r first).
Qed.

End InsertMany.

(** X15, at two records with the same keys in a different order: the
    values of the second record are bound in its own order. *)
Lemma insert_multiple_records_statement_witness :
  executed (insert_multiple_records accept_all no_rows no_count "categories"
              [[("category_name", VStr "Tools"); ("description", VStr "Hand")];
               [("description", VStr "Power"); ("category_name", VStr "Drills")]]
              fresh).1
  = [("INSERT INTO " +:+ sql.quote_ident "categories" +:+ " ("
      +:+ sql.quote_ident "category_name" +:+ ", "
      +:+ sql.quote_ident "description"
      +:+ ") VALUES (%s, %s), (%s, %s) RETURNING *",
      [VStr "Tools"; VStr "Hand"; VStr "Power"; VStr "Drills"])].
Proof.
  apply (insert_multiple_records_statement accept_all no_rows no_count fresh
           "categories"
           [("category_name", VStr "Tools"); ("description", VStr "Hand")]
           [[("description", VStr "Power"); ("category_name", VStr "Drills")]]).
  - reflexivity.
  - repeat constructor.
  - repeat (apply Forall_cons; split); [| |apply Forall_nil_2];
      (split; [apply (bool_decide_unpack _); vm_compute; exact I | set_solver]).
Defined.

(** X11, at a registered and at an unregistered table. *)
Lemma display_table_behaviour_witness :
  display_table accept_all no_rows "orders" fresh
  = (fresh, Printed (ErrException "displaying table"
                       (ValueError "Invalid table name: orders")))
  ∧ executed (display_table accept_all no_rows "suppliers" fresh).1
    = [("SELECT * FROM " +:+ sql.quote_ident "suppliers", [])].
Proof.
  split.
  - apply (proj1 (display_table_behaviour accept_all no_rows fresh "orders")).
    reflexivity.
  - apply (proj2 (display_table_behaviour accept_all no_rows fresh "suppliers")).
    reflexivity.
Defined.

(** X12, at a column of another table and at a registered column. *)
Lemma filter_single_value_behaviour_witness :
  filter_single_value accept_all no_rows "suppliers" "sku" (VStr "A-1") fresh
  = (fresh, Printed (ErrInvalidColumn "sku" "suppliers"))
  ∧ executed (filter_single_value accept_all no_rows "products" "sku"
                (VStr "A'1") fresh).1
    = [("SELECT * FROM " +:+ sql.quote_ident "products" +:+ " WHERE "
        +:+ sql.quote_ident "sku" +:+ " = %s", [VStr "A1"])].
Proof.
  split.
  - apply (proj1 (filter_single_value_behaviour accept_all no_rows fresh
                    "suppliers" "sku" (VStr "A-1"))).
    reflexivity.
  - apply (proj2 (filter_single_value_behaviour accept_all no_rows fresh
                    "products" "sku" (VStr "A'1"))).
    reflexivity.
Defined.

(** ** What the write operations report *)

Section Reports.

Import sql.

Context {DB : Type}.
Variable cursor_execute : DB → string → list Value → Py DB.
Variable fetchall : DB → list Dict.
Variable rowcount : DB → Z.

(** For any text that starts with INSERT or UPDATE, [execute_query]
    returns nothing; an accepted statement leaves no message. *)
Lemma execute_query_write c rest params (w : World DB) :
  c = "I"%char ∨ c = "U"%char →
  let query := String c rest in
  execute_query cursor_execute fetchall query params w
  = match cursor_execute (db w) query params with
    | inl e =>
        (emit (LogQueryFailed e)
           (mkWorld (db w) (executed w ++ [(query, params)]) (out w)),
         None)
    | inr db' =>
        (mkWorld db' (executed w ++ [(query, params)]) (out w), None)
    end.
Proof.
  intros Hc query. unfold execute_query. cbn [db executed out].
  destruct (cursor_execute (db w) query params) as [e|db']; [done|].
  unfold query.
  destruct Hc as [-> | ->].
  - destruct (strip_head "I" rest eq_refl) as [r ->]. reflexivity.
  - destruct (strip_head "U" rest eq_refl) as [r ->]. reflexivity.
Qed.

(** X16: an insert of one record that the driver accepts is silent:
    for a registered table and valid columns, [insert_single_record]
    hands the INSERT to the driver, prints nothing and returns nothing,
    although the statement asks for the inserted row. *)
Theorem insert_single_record_accepted_is_silent
    (w : World DB) table (data : Dict) db' :
  let text := "INSERT INTO " +:+ quote_ident table +:+ " ("
              +:+ Str.join ", " (quote_ident <$> keys data)
              +:+ ") VALUES ("
              +:+ Str.join ", " (replicate (List.length data) "%s")
              +:+ ") RETURNING *" in
  validate_identifier table None = true →
  Forall (λ col, validate_identifier table (Some col) = true) (keys data) →
  cursor_execute (db w) text (sanitize_value <$> values data) = inr db' →
  insert_single_record cursor_execute fetchall table data w
  = (mkWorld db'
       (executed w ++ [(text, sanitize_value <$> values data)]) (out w),
     None).
Proof.
  intros text Htable Hcols Hok.
  unfold insert_single_record.
  rewrite (first_invalid_none _ _ Hcols).
  rewrite (build_insert_query_valid _ _ _ Htable Hcols), insert_text.
  assert ("INSERT INTO " +:+ quote_ident table +:+ " ("
          +:+ Str.join ", " (quote_ident <$> keys data) +:+ ") VALUES "
          +:+ Str.join ", "
                ((λ vs : list Value,
                    "(" +:+ Str.join ", " (replicate (List.length vs) "%s")
                    +:+ ")") <$> [values data])
          +:+ " RETURNING *" = text) as ->.
  { unfold text, values. rewrite fmap_cons, length_fmap.
    cbn [fmap list_fmap]. unfold Str.join at 2. cbn [String.concat].
    rewrite !string_app_assoc. reflexivity. }
  pose proof (execute_query_write "I"
                ("NSERT INTO " +:+ quote_ident table +:+ " ("
                 +:+ Str.join ", " (quote_ident <$> keys data)
                 +:+ ") VALUES ("
                 +:+ Str.join ", " (replicate (List.length data) "%s")
                 +:+ ") RETURNING *")
                (sanitize_value <$> values data) w (or_introl eq_refl)) as Hq.
  change (String "I" _) with text in Hq. cbv zeta in Hq.
  rewrite Hq, Hok. reflexivity.
Qed.

(** X17: [update_multiple_records] reports success without looking at
    the outcome: when the driver refuses the UPDATE, the failure is
    logged and the message that records were updated is printed all the
    same, with the row count of the cursor. *)
Theorem update_multiple_records_reports_success_after_failure
    (w : World DB) table col vs ucol newv e :
  let text := "UPDATE " +:+ quote_ident table +:+ " SET "
              +:+ quote_ident ucol +:+ " = %s WHERE "
              +:+ in_text col (List.length vs) in
  let params := sanitize_value newv :: (sanitize_value <$> vs) in
  validate_identifier table (Some col) = true →
  validate_identifier table (Some ucol) = true →
  Str.endswith "_id" ucol = false →
  cursor_execute (db w) text params = inl e →
  update_multiple_records cursor_execute fetchall rowcount
    table col vs ucol newv w
  = mkWorld (db w) (executed w ++ [(text, params)])
      (out w ++ [LogQueryFailed e;
                 UpdatedRecords (rowcount (db w)) ucol newv col vs]).
Proof.
  intros text params Hcol Hucol Hid Hfail.
  pose proof (validated_column_table _ _ Hcol) as Htable.
  assert (mapM (set_part table) [(ucol, newv)]
          = inr [Composed [Identifier ucol; SQL " = "; Placeholder]]) as Hs.
  { apply (mapM_set_part_valid table [(ucol, newv)]). by constructor. }
  assert (mapM (condition table) [(col, "IN", VList vs)]
          = inr [Composed [Identifier col; SQL " IN (";
                           join ", " (replicate (List.length vs) Placeholder);
                           SQL ")"]]) as Hm.
  { cbn [mapM]. by rewrite (condition_in table col "IN" vs Hcol eq_refl). }
  unfold update_multiple_records.
  rewrite Hcol, Hucol, Hid, (build_update_query_valid _ _ _ _ _ Htable Hs Hm).
  cbn [negb]. rewrite update_text.
  assert ("UPDATE " +:+ quote_ident table +:+ " SET "
          +:+ Str.join ", "
                (as_string <$> [Composed [Identifier ucol; SQL " = ";
                                          Placeholder]])
          +:+ " WHERE "
          +:+ Str.join " AND "
                (as_string <$> [Composed [Identifier col; SQL " IN (";
                   join ", " (replicate (List.length vs) Placeholder);
                   SQL ")"]]) = text) as ->.
  { unfold text. cbn [fmap list_fmap]. unfold Str.join. cbn [String.concat].
    rewrite in_condition_text.
    change (as_string (Composed [Identifier ucol; SQL " = "; Placeholder]))
      with (quote_ident ucol +:+ " = %s").
    by rewrite !string_app_assoc. }
  pose proof (execute_query_write "U"
                ("PDATE " +:+ quote_ident table +:+ " SET "
                 +:+ quote_ident ucol +:+ " = %s WHERE "
                 +:+ in_text col (List.length vs))
                params w (or_intror eq_refl)) as Hq.
  change (String "U" _) with text in Hq. cbv zeta in Hq.
  change ([sanitize_value newv] ++ (sanitize_value <$> vs)) with params.
  rewrite Hq, Hfail. unfold emit. cbn [db executed out].
  by rewrite <- app_assoc.
Qed.

End Reports.

(** X16, at a new category and a driver that accepts it. *)
Lemma insert_single_record_accepted_is_silent_witness :
  insert_single_record accept_all no_rows "categories"
    [("category_name", VStr "Tools"); ("description", VStr "Hand tools")] fresh
  = (mkWorld tt
       [("INSERT INTO " +:+ sql.quote_ident "categories" +:+ " ("
         +:+ sql.quote_ident "category_name" +:+ ", "
         +:+ sql.quote_ident "description"
         +:+ ") VALUES (%s, %s) RETURNING *",
         [VStr "Tools"; VStr "Hand tools"])] [],
     None).
Proof.
  apply (insert_single_record_accepted_is_silent accept_all no_rows fresh
           "categories"
           [("category_name", VStr "Tools"); ("description", VStr "Hand tools")]
           tt).
  - reflexivity.
  - repeat constructor.
  - reflexivity.
Defined.

(** X17, at a driver that refuses every statement. *)
Lemma update_multiple_records_reports_success_after_failure_witness :
  out (update_multiple_records refuse_all no_rows no_count
         "products" "category_id" [VInt 1; VInt 2] "price" (VInt 0) fresh)
  = [LogQueryFailed (ValueError "connection already closed");
     UpdatedRecords 0 "price" (VInt 0) "category_id" [VInt 1; VInt 2]].
Proof.
  rewrite (update_multiple_records_reports_success_after_failure
             refuse_all no_rows no_count fresh "products" "category_id"
             [VInt 1; VInt 2] "price" (VInt 0)
             (ValueError "connection already closed")
             eq_refl eq_refl eq_refl eq_refl).
  reflexivity.
Defined.

(** ** The list of tables *)

Section TableNames.

Context {DB : Type}.
Variable cursor_execute : DB → string → list Value → Py DB.
Variable fetchall : DB → list Dict.

(** X18: [get_table_names] hands the driver one fixed text without
    parameters. It returns the empty list when the driver raises, and
    every name it returns is the [table_name] of a row the driver
    returned; if some row lacks that key it returns the empty list and
    logs the failure. *)
Theorem get_table_names_behaviour (w : World DB) :
  executed (get_table_names cursor_execute fetchall w).1
  = executed w ++ [(table_names_query, [])]
  ∧ (∀ e, cursor_execute (db w) table_names_query [] = inl e →
          (get_table_names cursor_execute fetchall w).2 = ([], None))
  ∧ (∀ db',
       cursor_execute (db w) table_names_query [] = inr db' →
       (∀ name, name ∈ (get_table_names cursor_execute fetchall w).2.1 →
                ∃ row, row ∈ fetchall db'
                       ∧ dict_get "table_name" row = inr name)
       ∧ (∀ row key,
            row ∈ fetchall db' → dict_get "table_name" row = inl key →
            ∃ e, (get_table_names cursor_execute fetchall w).2
                 = ([], Some ("Failed to get table names", e)))).
Proof.
  unfold get_table_names, execute_query. cbn [db executed out].
  destruct (cursor_execute (db w) table_names_query []) as [e|db0] eqn:Hex.
  { split; [done|]. split; [done|]. by intros db' [=]. }
  change (Str.startswith "SELECT" (Str.upper (Str.strip table_names_query))
          || Str.startswith "SHOW" (Str.upper (Str.strip table_names_query))
          || Str.startswith "DESC" (Str.upper (Str.strip table_names_query)))
    with true.
  cbn iota. split; [done|]. split; [done|].
  intros db' [= <-]. cbn [snd fst]. split.
  - intros name Hin.
    destruct (column_of_rows _ _ (Some (fetchall db0))) as [vs log] eqn:Hrows.
    destruct (column_of_rows_elem _ _ _ _ _ _ Hrows Hin)
      as (all & row & [= <-] & Hrow & Hget).
    by exists row.
  - intros row key Hrow Hget. unfold column_of_rows.
    destruct (fetchall db0) as [|r rs] eqn:Hrows.
    { by apply elem_of_nil in Hrow. }
    destruct (mapM (dict_get "table_name") (r :: rs)) as [e|vs] eqn:Hm.
    { by exists e. }
    apply mapM_Py_inv in Hm.
    assert (∃ v, dict_get "table_name" row = inr v) as [v Hv].
    { clear -Hm Hrow. induction Hm as [|x y l k Hxy _ IH].
      - by apply elem_of_nil in Hrow.
      - apply elem_of_cons in Hrow as [->|Hrow]; [by exists y | by apply IH]. }
    congruence.
Qed.

End TableNames.

(** X18, at a driver that refuses the query. *)
Lemma get_table_names_behaviour_witness :
  (get_table_names refuse_all no_rows fresh).2 = ([], None).
Proof.
  apply (proj1 (proj2 (get_table_names_behaviour refuse_all no_rows fresh))
           (ValueError "connection already closed") eq_refl).
Defined.
